(** * llmpool: a priority-ordered pool of LLM providers

    A shallow embedding of package [llmpool] (provider registry, fixed-window
    rate limiter, request/response translation, retry loop) together with the
    properties the specification states about it.

    Conventions.
    - Go's [int] is a 64-bit two's-complement integer: values are in [Z] and
      every arithmetic result goes through [int_wrap].
    - A [time.Time] is the number of nanoseconds since the zero time
      ([time.Time{}] is [0]); [Time_Sub] saturates like [time.Time.Sub].
    - A [*Provider] is a location of the heap of the state and is never
      nil; the registry is a list of locations, so that two entries may be
      the same object.
    - The standard library the package calls (the clock, [encoding/json],
      [net/http], the quicksort of [sort.Slice]) is the record [Runtime];
      the functions of the package that call it take it as first argument.
      [sort.Slice] itself is its insertion sort up to twelve elements and
      the quicksort of the runtime above.
    - The bytes [json.Marshal] produces are represented by the value they
      encode; the bytes of a response are a [list Byte.byte].
    - The locks are not modelled: every operation runs to completion. *)

From Stdlib Require Import ZArith Lia Floats.PrimFloat.
From Stdlib Require Floats.FloatOps Floats.SpecFloat.
From stdpp Require Import base tactics option list strings gmap functions pretty sorting.

Local Open Scope Z_scope.

(** ** Machine integers and time *)

Definition int_wrap (z : Z) : Z := (z + 2 ^ 63) mod 2 ^ 64 - 2 ^ 63.
Definition int_add (x y : Z) : Z := int_wrap (x + y).
Definition int_incr (x : Z) : Z := int_add x 1.
Definition int_range (z : Z) : Prop := - 2 ^ 63 <= z < 2 ^ 63.

Definition Time := Z.
Definition Duration := Z.

Definition maxDuration : Duration := 2 ^ 63 - 1.
Definition minDuration : Duration := - 2 ^ 63.
Definition Minute : Duration := 60 * 1000000000.

(** [t.Sub(u)]: the difference, clamped to what a [Duration] holds. *)
Definition Time_Sub (t u : Time) : Duration :=
  if maxDuration <? t - u then maxDuration
  else if t - u <? minDuration then minDuration
  else t - u.

(** [t.Before(u)] *)
Definition Time_Before (t u : Time) : bool := t <? u.

(** ** Errors

    No error of the package wraps another one with [%w]: an error is its
    message, and where it was made. *)
Inductive error :=
| fmt_Errorf (msg : string)   (* built by the package with fmt.Errorf *)
| lib_error (msg : string).   (* returned by net/http, io or encoding/json *)

Definition Error (e : error) : string :=
  match e with fmt_Errorf m | lib_error m => m end.

(** [%v] of a possibly nil error *)
Definition fmt_v (e : option error) : string :=
  match e with Some e => Error e | None => "<nil>" end.

(** ** Data model *)

Definition ProviderGroq : string := "groq".
Definition ProviderOpenAI : string := "openai".
Definition ProviderAnthropic : string := "anthropic".

Record Provider := mkProvider {
  Name : string;
  Type_ : string;
  APIKey : string;
  BaseURL : string;
  Model : string;
  Priority : Z;
  RequestsPerMinute : Z;
  RequestCount : Z;
  LastReset : Time;
  TotalRequests : Z;
  Errors : Z;
  LastUsed : Time
}.

Definition set_window (p : Provider) (count : Z) (start : Time) : Provider :=
  mkProvider (Name p) (Type_ p) (APIKey p) (BaseURL p) (Model p) (Priority p)
    (RequestsPerMinute p) count start (TotalRequests p) (Errors p) (LastUsed p).

Definition set_LastReset (p : Provider) (start : Time) : Provider :=
  set_window p (RequestCount p) start.

Definition set_APIKey (p : Provider) (k : string) : Provider :=
  mkProvider (Name p) (Type_ p) k (BaseURL p) (Model p) (Priority p)
    (RequestsPerMinute p) (RequestCount p) (LastReset p) (TotalRequests p)
    (Errors p) (LastUsed p).

Definition set_usage (p : Provider) (count total errs : Z) (used : Time) : Provider :=
  mkProvider (Name p) (Type_ p) (APIKey p) (BaseURL p) (Model p) (Priority p)
    (RequestsPerMinute p) count (LastReset p) total errs used.

(** The zero value of [Provider]. *)
Definition Provider_zero : Provider :=
  mkProvider "" "" "" "" "" 0 0 0 0 0 0 0.

Record ImageURLObject := mkImageURLObject { URL : string }.

Record MessagePart := mkMessagePart {
  PartType : string;
  Text : string;
  ImageURL : option ImageURLObject
}.

(** [Content any]: a string or a [[]MessagePart]. *)
Inductive Content :=
| ContentString (s : string)
| ContentParts (parts : list MessagePart).

Record ChatMessage := mkChatMessage {
  Role : string;
  MsgContent : Content
}.

Record ChatRequest := mkChatRequest {
  Messages : list ChatMessage;
  ReqModel : string;
  Temperature : float;
  MaxTokens : Z;
  Stream : bool
}.

Record Usage := mkUsage {
  PromptTokens : Z;
  CompletionTokens : Z;
  TotalTokens : Z
}.

Record ChatResponse := mkChatResponse {
  ID : string;
  RespContent : string;
  RespModel : string;
  RespUsage : Usage;
  RespProvider : string
}.

(** ** The wire side

    What the package passes to [json.Marshal] is a [map[string]interface{}];
    its values are of the few types below.  What [json.Unmarshal] fills in is
    one of two anonymous structs. *)
Inductive wire_value :=
| WString (s : string)
| WInt (n : Z)
| WFloat (f : float)
| WBool (b : bool)
| WMessages (l : list ChatMessage)             (* []ChatMessage *)
| WStringMaps (l : list (gmap string string)). (* []map[string]string *)

Record openaiChoice := mkOpenaiChoice { ChoiceContent : string }.

Record openaiResp := mkOpenaiResp {
  oID : string;
  oModel : string;
  Choices : list openaiChoice;
  oUsage : Usage
}.

Record anthropicBlock := mkAnthropicBlock { BlockText : string }.

Record anthropicResp := mkAnthropicResp {
  aID : string;
  aModel : string;
  aContent : list anthropicBlock;
  InputTokens : Z;
  OutputTokens : Z
}.

Record HttpRequest := mkHttpRequest {
  Method : string;
  Endpoint : string;
  Header : gmap string string;
  ReqBody : gmap string wire_value
}.

Definition Header_Set (k v : string) (r : HttpRequest) : HttpRequest :=
  mkHttpRequest (Method r) (Endpoint r) (<[k := v]> (Header r)) (ReqBody r).

(** A response, with what [io.ReadAll] makes of its body. *)
Record HttpResponse := mkHttpResponse {
  StatusCode : Z;
  Body : list Byte.byte + error
}.

Definition StatusOK : Z := 200.

(** ** The standard library, as far as the package calls it *)
Record Runtime := mkRuntime {
  (* time.Now: the reading at the n-th call *)
  wall : nat -> Time;
  (* json.Marshal: the error, if the value cannot be encoded *)
  json_Marshal_fails : gmap string wire_value -> option error;
  json_Unmarshal_openai : list Byte.byte -> openaiResp + error;
  json_Unmarshal_anthropic : list Byte.byte -> anthropicResp + error;
  (* method, url, body *)
  http_NewRequestWithContext :
    string -> string -> gmap string wire_value -> HttpRequest + error;
  (* client.Do: the answer to the n-th call *)
  client_Do : nat -> HttpRequest -> HttpResponse + error;
  (* what sort.Slice does to a slice of more than twelve elements *)
  pdqsort_func : forall A : Type, (A -> A -> bool) -> list A -> list A
}.

Definition json_Marshal (R : Runtime) (v : gmap string wire_value)
    : gmap string wire_value + error :=
  match json_Marshal_fails R v with
  | Some err => inr err
  | None => inl v
  end.

(** [sort.Slice].  Up to twelve elements it runs [insertionSortLessFunc]:
    each element in turn moves left while it is less than its left
    neighbour.  [rev_prefix] and [rev_sorted] hold the part of the slice
    already visited, last element first. *)
Fixpoint insertionSort_insert {A} (less : A -> A -> bool) (x : A)
    (rev_prefix : list A) : list A :=
  match rev_prefix with
  | [] => [x]
  | y :: rest =>
      if less x y then y :: insertionSort_insert less x rest
      else x :: y :: rest
  end.

Fixpoint insertionSort_from {A} (less : A -> A -> bool) (rev_sorted : list A)
    (todo : list A) : list A :=
  match todo with
  | [] => rev rev_sorted
  | x :: todo' =>
      insertionSort_from less (insertionSort_insert less x rev_sorted) todo'
  end.

Definition insertionSortLessFunc {A} (less : A -> A -> bool) (l : list A) : list A :=
  insertionSort_from less [] l.

Definition maxInsertion : nat := 12.

Definition sort_Slice (R : Runtime) {A} (less : A -> A -> bool) (l : list A) : list A :=
  if (length l <=? maxInsertion)%nat then insertionSortLessFunc less l
  else pdqsort_func R A less l.

(** ** State and the monad of the package's methods *)

Definition loc := nat.

Record State := mkState {
  heap : loc -> Provider;   (* the Provider objects *)
  providers : list loc;     (* p.providers *)
  clock : nat;              (* calls of time.Now so far *)
  calls : nat               (* calls of client.Do so far *)
}.

Inductive outcome (A : Type) :=
| Returns (a : A)
| Panics (msg : string).
Arguments Returns {A} a.
Arguments Panics {A} msg.

Definition M (A : Type) : Type := State -> outcome A * State.

Definition ret {A} (a : A) : M A := fun s => (Returns a, s).

Definition bind {A B} (c : M A) (k : A -> M B) : M B :=
  fun s => match c s with
           | (Returns a, s') => k a s'
           | (Panics msg, s') => (Panics msg, s')
           end.

Definition panic {A} (msg : string) : M A := fun s => (Panics msg, s).

Notation "'let*' x ':=' c 'in' k" := (bind c (fun x => k))
  (at level 10, x name, c at level 100, k at level 200).

Definition get : M State := fun s => (Returns s, s).

Definition load (a : loc) : M Provider := fun s => (Returns (heap s a), s).

Definition store (a : loc) (p : Provider) : M unit :=
  fun s => (Returns tt, mkState (<[a := p]> (heap s)) (providers s) (clock s) (calls s)).

Definition set_providers (l : list loc) : M unit :=
  fun s => (Returns tt, mkState (heap s) l (clock s) (calls s)).

Definition time_Now (R : Runtime) : M Time :=
  fun s => (Returns (wall R (clock s)),
            mkState (heap s) (providers s) (S (clock s)) (calls s)).

Definition Do (R : Runtime) (r : HttpRequest) : M (HttpResponse + error) :=
  fun s => (Returns (client_Do R (calls s) r),
            mkState (heap s) (providers s) (clock s) (S (calls s))).

(** ** Rate limiter and selection *)

Definition CanUseProvider (R : Runtime) (provider : loc) : M bool :=
  let* now := time_Now R in
  let* p := load provider in
  let* _ := (if Minute <=? Time_Sub now (LastReset p)
             then store provider (set_window p 0 now)
             else ret tt) in
  let* p := load provider in
  ret (RequestCount p <? RequestsPerMinute p).

(** The first loop of [SelectProvider]. *)
Fixpoint SelectProvider_scan (R : Runtime) (l : list loc) : M (option loc) :=
  match l with
  | [] => ret None
  | provider :: l' =>
      let* ok := CanUseProvider R provider in
      if ok then ret (Some provider) else SelectProvider_scan R l'
  end.

(** The second loop of [SelectProvider]. *)
Fixpoint SelectProvider_leastRecent (h : loc -> Provider) (leastRecent : loc)
    (l : list loc) : loc :=
  match l with
  | [] => leastRecent
  | provider :: l' =>
      SelectProvider_leastRecent h
        (if Time_Before (LastUsed (h provider)) (LastUsed (h leastRecent))
         then provider else leastRecent) l'
  end.

Definition SelectProvider (R : Runtime) : M (loc + error) :=
  let* s0 := get in
  let* found := SelectProvider_scan R (providers s0) in
  match found with
  | Some provider => ret (inl provider)
  | None =>
      let* s := get in
      match providers s with
      | [] => ret (inr (fmt_Errorf "no providers available"))
      | first :: rest => ret (inl (SelectProvider_leastRecent (heap s) first rest))
      end
  end.

Definition UpdateProviderStats (R : Runtime) (provider : loc) (success : bool) : M unit :=
  let* p := load provider in
  let* now := time_Now R in
  store provider
    (set_usage p (int_incr (RequestCount p)) (int_incr (TotalRequests p))
       (if success then Errors p else int_incr (Errors p)) now).

(** ** Registry *)

(** The comparison [AddProvider] gives to [sort.Slice]. *)
Definition AddProvider_less (h : loc -> Provider) (i j : loc) : bool :=
  if Priority (h i) =? Priority (h j)
  then String.eqb (Type_ (h i)) ProviderGroq
  else Priority (h i) <? Priority (h j).

Definition AddProvider (R : Runtime) (provider : loc) : M unit :=
  let* now := time_Now R in
  let* p := load provider in
  let* _ := store provider (set_LastReset p now) in
  let* s := get in
  let* _ := set_providers (providers s ++ [provider]) in
  let* s := get in
  set_providers (sort_Slice R (AddProvider_less (heap s)) (providers s)).

(** The loop of [GetProviders]: [out] is the slice being filled, [i] the
    index of the head of [l] in [p.providers]. *)
Fixpoint GetProviders_loop (h : loc -> Provider) (i : nat) (l : list loc)
    (out : list Provider) : list Provider :=
  match l with
  | [] => out
  | provider :: l' =>
      let out := <[i := h provider]> out in
      let out := alter (fun q => set_APIKey q "***") i out in
      GetProviders_loop h (S i) l' out
  end.

Definition GetProviders : M (list Provider) :=
  let* s := get in
  ret (GetProviders_loop (heap s) 0 (providers s)
         (replicate (length (providers s)) Provider_zero)).

(** ** Translation *)

(** [c.(string)]: the one-result type assertion panics on another type. *)
Definition assert_string (c : Content) : M string :=
  match c with
  | ContentString s => ret s
  | ContentParts _ =>
      panic "interface conversion: interface {} is []llmpool.MessagePart, not string"
  end.

(** The loop of the Anthropic case, over the messages not yet visited. *)
Fixpoint ConvertToProviderFormat_loop (msgs : list ChatMessage)
    (systemMsg : string) (messages : list (gmap string string))
    : M (string * list (gmap string string)) :=
  match msgs with
  | [] => ret (systemMsg, messages)
  | msg :: rest =>
      if String.eqb (Role msg) "system" then
        let* c := assert_string (MsgContent msg) in
        ConvertToProviderFormat_loop rest c messages
      else
        let* c := assert_string (MsgContent msg) in
        ConvertToProviderFormat_loop rest systemMsg
          (messages ++ [ {[ "role" := Role msg; "content" := c ]} ])
  end.

Definition unsupported (ty : string) : error :=
  fmt_Errorf ("unsupported provider type: " +:+ ty).

Definition ConvertToProviderFormat (R : Runtime) (provider : loc) (req : ChatRequest)
    : M (gmap string wire_value + error) :=
  let* p := load provider in
  if String.eqb (Type_ p) ProviderGroq || String.eqb (Type_ p) ProviderOpenAI then
    let openaiReq : gmap string wire_value :=
      {[ "model" := WString (Model p);
         "messages" := WMessages (Messages req);
         "temperature" := WFloat (Temperature req);
         "max_tokens" := WInt (MaxTokens req);
         "stream" := WBool (Stream req) ]} in
    ret (json_Marshal R openaiReq)
  else if String.eqb (Type_ p) ProviderAnthropic then
    let* sm := ConvertToProviderFormat_loop (Messages req) "" [] in
    let anthropicReq : gmap string wire_value :=
      {[ "model" := WString (Model p);
         "max_tokens" := WInt (MaxTokens req);
         "temperature" := WFloat (Temperature req);
         "messages" := WStringMaps (sm.2) ]} in
    let anthropicReq :=
      if String.eqb (sm.1) "" then anthropicReq
      else <["system" := WString (sm.1)]> anthropicReq in
    ret (json_Marshal R anthropicReq)
  else
    ret (inr (unsupported (Type_ p))).

Definition ParseProviderResponse (R : Runtime) (provider : loc) (body : list Byte.byte)
    : M (ChatResponse + error) :=
  let* p := load provider in
  let response := mkChatResponse "" "" "" (mkUsage 0 0 0) (Name p) in
  if String.eqb (Type_ p) ProviderGroq || String.eqb (Type_ p) ProviderOpenAI then
    match json_Unmarshal_openai R body with
    | inr err => ret (inr err)
    | inl openaiResp =>
        let response :=
          mkChatResponse (oID openaiResp) (RespContent response) (oModel openaiResp)
            (oUsage openaiResp) (RespProvider response) in
        let response :=
          match Choices openaiResp with
          | c :: _ =>
              mkChatResponse (ID response) (ChoiceContent c) (RespModel response)
                (RespUsage response) (RespProvider response)
          | [] => response
          end in
        ret (inl response)
    end
  else if String.eqb (Type_ p) ProviderAnthropic then
    match json_Unmarshal_anthropic R body with
    | inr err => ret (inr err)
    | inl anthropicResp =>
        let response :=
          mkChatResponse (aID anthropicResp) (RespContent response) (aModel anthropicResp)
            (mkUsage (InputTokens anthropicResp) (OutputTokens anthropicResp)
               (int_add (InputTokens anthropicResp) (OutputTokens anthropicResp)))
            (RespProvider response) in
        let response :=
          match aContent anthropicResp with
          | c :: _ =>
              mkChatResponse (ID response) (BlockText c) (RespModel response)
                (RespUsage response) (RespProvider response)
          | [] => response
          end in
        ret (inl response)
    end
  else
    ret (inr (unsupported (Type_ p))).

(** ** Dispatch *)

(** How one pass through the body of the loop of [Chat] ends. *)
Inductive control :=
| Return (r : ChatResponse + error)   (* return from Chat *)
| Continue (lastErr : error).         (* lastErr = err; continue *)

Definition Chat_endpoint (p : Provider) : string :=
  if String.eqb (Type_ p) ProviderGroq then BaseURL p +:+ "/chat/completions"
  else if String.eqb (Type_ p) ProviderOpenAI then BaseURL p +:+ "/chat/completions"
  else if String.eqb (Type_ p) ProviderAnthropic then BaseURL p +:+ "/messages"
  else "".

Definition Chat_headers (p : Provider) (httpReq : HttpRequest) : HttpRequest :=
  let httpReq := Header_Set "Content-Type" "application/json" httpReq in
  if String.eqb (Type_ p) ProviderGroq || String.eqb (Type_ p) ProviderOpenAI then
    Header_Set "Authorization" ("Bearer " +:+ APIKey p) httpReq
  else if String.eqb (Type_ p) ProviderAnthropic then
    Header_Set "anthropic-version" "2023-06-01"
      (Header_Set "x-api-key" (APIKey p) httpReq)
  else httpReq.

Definition status_error (p : Provider) (code : Z) (body : list Byte.byte) : error :=
  fmt_Errorf ("provider " +:+ Name p +:+ " returned status " +:+ pretty code
              +:+ ": " +:+ String.string_of_list_byte body).

(** The body of the loop of [Chat]. *)
Definition Chat_body (R : Runtime) (req : ChatRequest) : M control :=
  let* sel := SelectProvider R in
  match sel with
  | inr err => ret (Return (inr err))
  | inl provider =>
      let* conv := ConvertToProviderFormat R provider req in
      match conv with
      | inr err => ret (Continue err)
      | inl reqBody =>
          let* p := load provider in
          let endpoint := Chat_endpoint p in
          match http_NewRequestWithContext R "POST" endpoint reqBody with
          | inr err => ret (Continue err)
          | inl httpReq =>
              let httpReq := Chat_headers p httpReq in
              let* sent := Do R httpReq in
              match sent with
              | inr err =>
                  let* _ := UpdateProviderStats R provider false in
                  ret (Continue err)
              | inl resp =>
                  match Body resp with
                  | inr err =>
                      let* _ := UpdateProviderStats R provider false in
                      ret (Continue err)
                  | inl body =>
                      if negb (StatusCode resp =? StatusOK) then
                        let* _ := UpdateProviderStats R provider false in
                        ret (Continue (status_error p (StatusCode resp) body))
                      else
                        let* parsed := ParseProviderResponse R provider body in
                        match parsed with
                        | inr err =>
                            let* _ := UpdateProviderStats R provider false in
                            ret (Continue err)
                        | inl chatResp =>
                            let* _ := UpdateProviderStats R provider true in
                            ret (Return (inl chatResp))
                        end
                  end
              end
          end
      end
  end.

Definition all_failed (lastErr : option error) : error :=
  fmt_Errorf ("all providers failed, last error: " +:+ fmt_v lastErr).

(** The loop of [Chat], with [n] passes left. *)
Fixpoint Chat_loop (R : Runtime) (req : ChatRequest) (n : nat)
    (lastErr : option error) : M (ChatResponse + error) :=
  match n with
  | O => ret (inr (all_failed lastErr))
  | S n' =>
      let* c := Chat_body R req in
      match c with
      | Return r => ret r
      | Continue err => Chat_loop R req n' (Some err)
      end
  end.

Definition Chat (R : Runtime) (req : ChatRequest) : M (ChatResponse + error) :=
  let* s := get in
  let maxRetries := length (providers s) in
  Chat_loop R req maxRetries None.

(** ** Sample runtime and states

    The clock advances one second a call, [json.Marshal] never fails,
    requests are built as asked, every body decodes to the same struct of
    its family, and large slices are sorted by insertion too. *)
Definition second : Duration := 1000000000.

Definition sample_runtime (answer : nat -> HttpRequest -> HttpResponse + error) : Runtime :=
  mkRuntime
    (fun n => Z.of_nat n * second)
    (fun _ => None)
    (fun _ => inl (mkOpenaiResp "id-1" "gpt" [mkOpenaiChoice "hello"] (mkUsage 1 2 7)))
    (fun _ => inl (mkAnthropicResp "id-2" "claude" [mkAnthropicBlock "hello"] 3 4))
    (fun method url body => inl (mkHttpRequest method url ∅ body))
    answer
    (@insertionSortLessFunc).

(** Every call is answered with status 500 and an empty body. *)
Definition always_500 : nat -> HttpRequest -> HttpResponse + error :=
  fun _ _ => inl (mkHttpResponse 500 (inl [])).

Definition always_200 : nat -> HttpRequest -> HttpResponse + error :=
  fun _ _ => inl (mkHttpResponse 200 (inl [])).

Definition R500 : Runtime := sample_runtime always_500.
Definition R200 : Runtime := sample_runtime always_200.

Definition fresh (name ty : string) (priority quota : Z) : Provider :=
  mkProvider name ty "secret" "https://api" "model" priority quota 0 0 0 0 0.

Definition empty_pool (h : loc -> Provider) : State := mkState h [] 0 0.

Definition request (msgs : list ChatMessage) : ChatRequest :=
  mkChatRequest msgs "" 0%float 100 false.

(** A registry of one destination, at location 1. *)
Definition one_provider (p : Provider) : State := mkState (fun _ => p) [1%nat] 0 0.

Definition claude : Provider := fresh "claude" ProviderAnthropic 1 10.
Definition gpt : Provider := fresh "gpt" ProviderOpenAI 1 10.

(** As [R200], but every structured-turn body decodes to the largest input
    count an [int] holds and an output count of one. *)
Definition R200_huge : Runtime :=
  mkRuntime (wall R200) (json_Marshal_fails R200) (json_Unmarshal_openai R200)
    (fun _ => inl (mkAnthropicResp "id-3" "claude" [mkAnthropicBlock "hello"]
                     (2 ^ 63 - 1) 1))
    (http_NewRequestWithContext R200) (client_Do R200) (pdqsort_func R200).
Definition mistral : Provider := fresh "mistral" "mistral" 1 10.

(** Three chat-completions destinations of priorities 1, 2, 3 and quota 5. *)
Definition three_providers : State :=
  mkState (fun a => match a with
                    | 1%nat => fresh "a" ProviderOpenAI 1 5
                    | 2%nat => fresh "b" ProviderOpenAI 2 5
                    | _ => fresh "c" ProviderOpenAI 3 5
                    end)
    [1%nat; 2%nat; 3%nat] 0 0.

(** Two destinations of type [ty] and priority 1 at locations 1 and 2, and
    a chat-completions destination of priority 5 elsewhere. *)
Definition twins (ty : string) : loc -> Provider :=
  fun a => match a with
           | 1%nat => fresh "first" ty 1 10
           | 2%nat => fresh "second" ty 1 10
           | _ => fresh "third" ProviderOpenAI 5 10
           end.


(** ** Vocabulary of the statements *)

(** The rate-limit checks of the destinations of [l], run in order from
    [s], all refuse and leave the state [s']. *)
Inductive scan_denied (R : Runtime) : State -> list loc -> State -> Prop :=
| scan_denied_nil s : scan_denied R s [] s
| scan_denied_cons s provider l s1 s2 :
    CanUseProvider R provider s = (Returns false, s1) ->
    scan_denied R s1 l s2 ->
    scan_denied R s (provider :: l) s2.

Definition masked (p : Provider) : Provider := set_APIKey p "***".

Definition is_system (m : ChatMessage) : bool := String.eqb (Role m) "system".

Definition plain_text (m : ChatMessage) : Prop :=
  exists t, MsgContent m = ContentString t.

Definition multimodal (m : ChatMessage) : Prop :=
  exists parts, MsgContent m = ContentParts parts.

Definition text_of (m : ChatMessage) : string :=
  match MsgContent m with
  | ContentString t => t
  | ContentParts _ => ""
  end.

(** The contents of the system-role messages, in order. *)
Definition system_texts (msgs : list ChatMessage) : list string :=
  map text_of (List.filter is_system msgs).

(** The other messages as role+content pairs, in order. *)
Definition turns (msgs : list ChatMessage) : list (gmap string string) :=
  map (fun m => {[ "role" := Role m; "content" := text_of m ]})
    (List.filter (fun m => negb (is_system m)) msgs).

Definition supported (ty : string) : bool :=
  String.eqb ty ProviderGroq || String.eqb ty ProviderOpenAI
  || String.eqb ty ProviderAnthropic.

(** What one call of [UpdateProviderStats] at time [now] makes of [p]. *)
Definition recorded (p : Provider) (success : bool) (now : Time) : Provider :=
  set_usage p (int_incr (RequestCount p)) (int_incr (TotalRequests p))
    (if success then Errors p else int_incr (Errors p)) now.

(** The state one pass of the loop of [Chat] leaves when it has selected
    [provider] in [s1] and gone as far as the network call. *)
Definition attempted (R : Runtime) (s1 : State) (provider : loc) (success : bool)
    : State :=
  mkState
    (<[provider := recorded (heap s1 provider) success (wall R (clock s1))]> (heap s1))
    (providers s1) (S (clock s1)) (S (calls s1)).

(** A provider without the state of its rate-limit window. *)
Definition window_erased (p : Provider) : Provider := set_window p 0 0.

(** [a] may stand before [b] in the registry: its priority is lower, or it
    is the same and [a] is of type Groq if [b] is. *)
Definition may_precede (h : loc -> Provider) (a b : loc) : Prop :=
  Priority (h a) < Priority (h b) \/
  (Priority (h a) = Priority (h b) /\
   (Type_ (h b) = ProviderGroq -> Type_ (h a) = ProviderGroq)).

(** What is asked of the quicksort of [sort.Slice] on the slices of more
    than twelve elements: its result is a rearrangement of the slice, in the
    order of every transitive relation [before] that the comparison function
    decides (true: the first may stand before the second; false: the second
    may stand before the first).  For a strict weak ordering [less] and
    [before x y := less y x = false] this is the contract of the
    documentation. *)
Definition sorts_consistently
    (sort : forall A : Type, (A -> A -> bool) -> list A -> list A) : Prop :=
  forall (A : Type) (less : A -> A -> bool) (before : A -> A -> Prop) (l : list A),
    (forall x y, less x y = true -> before x y) ->
    (forall x y, less x y = false -> before y x) ->
    (forall x y z, before x y -> before y z -> before x z) ->
    sort A less l ≡ₚ l /\ StronglySorted before (sort A less l).

(** A sequence of [AddProvider] calls. *)
Fixpoint AddProviders (R : Runtime) (l : list loc) : M unit :=
  match l with
  | [] => ret tt
  | provider :: l' => let* _ := AddProvider R provider in AddProviders R l'
  end.

Definition openai_family (ty : string) : bool :=
  String.eqb ty ProviderGroq || String.eqb ty ProviderOpenAI.

Definition system_msg (t : string) : ChatMessage :=
  mkChatMessage "system" (ContentString t).
Definition user_msg (t : string) : ChatMessage :=
  mkChatMessage "user" (ContentString t).
Definition image_msg : ChatMessage :=
  mkChatMessage "user"
    (ContentParts [mkMessagePart "text" "what is this?" None;
                   mkMessagePart "image_url" "" (Some (mkImageURLObject "https://img"))]).

(** ** The rest of the registry's interface *)

(** The loop of [RemoveProvider]: the index of the first entry of [l] named
    [name], [i] being the index of the head of [l] in [p.providers]. *)
Fixpoint RemoveProvider_find (h : loc -> Provider) (name : string) (i : nat)
    (l : list loc) : option nat :=
  match l with
  | [] => None
  | provider :: l' =>
      if String.eqb (Name (h provider)) name then Some i
      else RemoveProvider_find h name (S i) l'
  end.

Definition RemoveProvider (name : string) : M bool :=
  let* s := get in
  match RemoveProvider_find (heap s) name 0 (providers s) with
  | Some i =>
      let* _ := set_providers (take i (providers s) ++ drop (S i) (providers s)) in
      ret true
  | None => ret false
  end.

Definition ProviderCount : M Z :=
  let* s := get in
  ret (Z.of_nat (length (providers s))).

(** The loop of [IsHealthy] is the first loop of [SelectProvider]. *)
Definition IsHealthy (R : Runtime) : M bool :=
  let* s0 := get in
  let* found := SelectProvider_scan R (providers s0) in
  match found with
  | Some _ => ret true
  | None =>
      let* s := get in
      ret (0 <? length (providers s))%nat
  end.

Record ProviderStats := mkProviderStats {
  StatsType : string;
  StatsPriority : Z;
  StatsRequestsPerMinute : Z;
  CurrentRequests : Z;
  StatsTotalRequests : Z;
  StatsErrors : Z;
  StatsLastUsed : Time;
  SuccessRate : float
}.

(** [float64(z)] for an [int]: the nearest float, ties to even. *)
Definition float64_of_int (z : Z) : float :=
  FloatOps.SF2Prim (SpecFloat.binary_normalize FloatOps.prec FloatOps.emax z 0 false).

Definition int_sub (x y : Z) : Z := int_wrap (x - y).

Definition GetStats_successRate (p : Provider) : float :=
  if 0 <? TotalRequests p then
    (float64_of_int (int_sub (TotalRequests p) (Errors p))
     / float64_of_int (TotalRequests p) * 100)%float
  else 0%float.

Definition GetStats_entry (p : Provider) : ProviderStats :=
  mkProviderStats (Type_ p) (Priority p) (RequestsPerMinute p) (RequestCount p)
    (TotalRequests p) (Errors p) (LastUsed p) (GetStats_successRate p).

(** The loop of [GetStats]. *)
Fixpoint GetStats_loop (h : loc -> Provider) (l : list loc)
    (stats : gmap string ProviderStats) : gmap string ProviderStats :=
  match l with
  | [] => stats
  | provider :: l' =>
      GetStats_loop h l' (<[Name (h provider) := GetStats_entry (h provider)]> stats)
  end.

Definition GetStats : M (gmap string ProviderStats) :=
  let* s := get in
  ret (GetStats_loop (heap s) (providers s) ∅).

(** ** More vocabulary *)

(** A provider without its runtime state: what configuration gave it. *)
Definition config_of (p : Provider) : Provider :=
  set_usage (set_window p 0 0) 0 0 0 0.

(** [n] calls of [UpdateProviderStats], with the outcomes [outcomes]. *)
Fixpoint UpdateProviderStats_each (R : Runtime) (provider : loc)
    (outcomes : list bool) : M unit :=
  match outcomes with
  | [] => ret tt
  | success :: rest =>
      let* _ := UpdateProviderStats R provider success in
      UpdateProviderStats_each R provider rest
  end.

(** A destination of quota zero registered with a window count of -1. *)
Definition overdrawn : Provider :=
  mkProvider "o" ProviderGroq "secret" "https://api" "model" 1 0 (-1) 0 0 0 0.

(** A destination whose window, opened at time 0 and spent (count 7 of a
    quota of 5), is checked at the clock's 61st second. *)
Definition spent_window : State :=
  mkState (fun _ => mkProvider "w" ProviderGroq "secret" "https://api" "model"
                      1 5 7 0 9 2 40)
    [1%nat] 61 0.

(** Three destinations of quota zero, last used at times 5, 3 and 3. *)
Definition cold_pool : State :=
  mkState (fun a => match a with
                    | 1%nat => set_usage (fresh "a" ProviderOpenAI 1 0) 0 0 0 5
                    | _ => set_usage (fresh "b" ProviderOpenAI 2 0) 0 0 0 3
                    end)
    [1%nat; 2%nat; 3%nat] 0 0.

(** * Properties *)

(** ** Time and integers *)

Lemma Minute_le_Time_Sub (t u : Time) :
  (Minute <=? Time_Sub t u) = (Minute <=? t - u).
Proof.
  unfold Time_Sub, Minute, maxDuration, minDuration.
  destruct (Z.ltb_spec (2 ^ 63 - 1) (t - u));
    [|destruct (Z.ltb_spec (t - u) (- 2 ^ 63))];
    destruct (Z.leb_spec (60 * 1000000000) (t - u)); try reflexivity;
    try (apply Z.leb_le; lia); apply Z.leb_gt; lia.
Qed.

Lemma int_incr_in_range (x : Z) :
  - 2 ^ 63 <= x < 2 ^ 63 - 1 -> int_incr x = x + 1.
Proof.
  intros Hx. unfold int_incr, int_add, int_wrap.
  rewrite Z.mod_small by lia. lia.
Qed.

Lemma int_add_in_range (x y : Z) :
  int_range (x + y) -> int_add x y = x + y.
Proof.
  unfold int_range, int_add, int_wrap. intros Hx.
  rewrite Z.mod_small by lia. lia.
Qed.

(** ** The rate limiter *)

Ltac run_monad :=
  unfold bind, ret, load, store, get, time_Now, set_providers, Do, panic; simpl.

Lemma CanUseProvider_eq (R : Runtime) (provider : loc) (s : State) :
  CanUseProvider R provider s =
  let now := wall R (clock s) in
  let p := heap s provider in
  if Minute <=? now - LastReset p
  then (Returns (0 <? RequestsPerMinute p),
        mkState (<[provider := set_window p 0 now]> (heap s)) (providers s)
          (S (clock s)) (calls s))
  else (Returns (RequestCount p <? RequestsPerMinute p),
        mkState (heap s) (providers s) (S (clock s)) (calls s)).
Proof.
  unfold CanUseProvider. run_monad. rewrite Minute_le_Time_Sub.
  destruct (Minute <=? _); simpl; [|reflexivity].
  rewrite fn_lookup_insert. reflexivity.
Qed.

(** C2, as the code has it.  The check reads the clock once.  When at
    least a minute has passed since the start of the window it sets the
    count of the window to zero and its start to the reading; otherwise it
    leaves both.  It writes no other field of the provider, no other
    provider, and not the registry.  It then permits the call exactly when
    the count of the window is below the quota.  A destination of quota zero
    is refused whenever the check reopens the window or the count is not
    negative. *)
Theorem CanUseProvider_fixed_window (R : Runtime) (provider : loc) (s : State) :
  let now := wall R (clock s) in
  let p := heap s provider in
  exists (ok : bool) (s' : State),
    CanUseProvider R provider s = (Returns ok, s') /\
    (Minute <= now - LastReset p ->
     RequestCount (heap s' provider) = 0 /\ LastReset (heap s' provider) = now) /\
    (now - LastReset p < Minute ->
     RequestCount (heap s' provider) = RequestCount p /\
     LastReset (heap s' provider) = LastReset p) /\
    (Name (heap s' provider) = Name p /\
     Type_ (heap s' provider) = Type_ p /\
     APIKey (heap s' provider) = APIKey p /\
     BaseURL (heap s' provider) = BaseURL p /\
     Model (heap s' provider) = Model p /\
     Priority (heap s' provider) = Priority p /\
     RequestsPerMinute (heap s' provider) = RequestsPerMinute p /\
     TotalRequests (heap s' provider) = TotalRequests p /\
     Errors (heap s' provider) = Errors p /\
     LastUsed (heap s' provider) = LastUsed p) /\
    (forall other, other <> provider -> heap s' other = heap s other) /\
    providers s' = providers s /\ calls s' = calls s /\ clock s' = S (clock s) /\
    (ok = true <-> RequestCount (heap s' provider) < RequestsPerMinute p) /\
    (RequestsPerMinute p = 0 ->
     Minute <= now - LastReset p \/ 0 <= RequestCount p ->
     ok = false).
Proof.
  intros now p. rewrite CanUseProvider_eq. fold now p. cbv zeta.
  destruct (Minute <=? now - LastReset p) eqn:Hwin.
  - apply Z.leb_le in Hwin.
    eexists _, _; split; [reflexivity|]. cbn [heap providers calls clock].
    rewrite fn_lookup_insert.
    cbn [set_window RequestCount LastReset Name Type_ APIKey BaseURL Model Priority
           RequestsPerMinute TotalRequests Errors LastUsed].
    split; [done|]. split; [lia|]. split; [done|].
    split; [intros other Hne; rewrite fn_lookup_insert_ne; done|].
    do 3 (split; [reflexivity|]). split; [apply Z.ltb_lt|].
    intros Hq _. rewrite Hq. reflexivity.
  - apply Z.leb_gt in Hwin.
    eexists _, _; split; [reflexivity|]. cbn [heap providers calls clock].
    split; [lia|]. split; [done|]. split; [done|]. split; [done|].
    do 3 (split; [reflexivity|]). split; [apply Z.ltb_lt|].
    intros Hq [Hre|Hc]; [lia|]. apply Z.ltb_ge. lia.
Qed.

Lemma CanUseProvider_fixed_window_witness :
  (exists s',
     CanUseProvider R500 1%nat spent_window = (Returns true, s') /\
     RequestCount (heap s' 1%nat) = 0 /\ LastReset (heap s' 1%nat) = 61 * second /\
     TotalRequests (heap s' 1%nat) = 9 /\ Errors (heap s' 1%nat) = 2 /\
     LastUsed (heap s' 1%nat) = 40) /\
  (exists s',
     CanUseProvider R500 1%nat
       (mkState (fun _ => fresh "a" ProviderGroq 1 0) [1%nat] 0 0)
     = (Returns false, s')).
Proof.
  split.
  - destruct (CanUseProvider_fixed_window R500 1%nat spent_window)
      as (ok & s' & Hrun & Hreset & _ & Hsame & _ & _ & _ & _ & Hok & _).
    destruct Hreset as [Hcount Hstart]; [vm_compute; discriminate|].
    destruct Hsame as (_ & _ & _ & _ & _ & _ & _ & Htot & Herr & Hused).
    assert (ok = true) as ->.
    { apply Hok. rewrite Hcount. reflexivity. }
    exists s'. split; [exact Hrun|]. split; [exact Hcount|].
    split; [rewrite Hstart; reflexivity|]. split; [exact Htot|].
    split; [exact Herr|exact Hused].
  - destruct (CanUseProvider_fixed_window R500 1%nat
                (mkState (fun _ => fresh "a" ProviderGroq 1 0) [1%nat] 0 0))
      as (ok & s' & Hrun & _ & _ & _ & _ & _ & _ & _ & _ & Hzero).
    exists s'. rewrite Hrun. rewrite Hzero; [reflexivity|reflexivity|].
    right. cbn. lia.
Defined.

(** C2, as stated, fails: a destination of quota zero registered with a
    window count of -1 is permitted by the check that follows. *)
Lemma quota_zero_permitted_on_negative_count :
  exists s1 s2,
    AddProvider R200 1%nat (empty_pool (fun _ => overdrawn)) = (Returns tt, s1) /\
    providers s1 = [1%nat] /\
    RequestsPerMinute (heap s1 1%nat) = 0 /\
    CanUseProvider R200 1%nat s1 = (Returns true, s2).
Proof.
  eexists _, _. split; [vm_compute; reflexivity|].
  split; [reflexivity|]. split; [reflexivity|]. vm_compute. reflexivity.
Qed.

(** ** Selection *)

Lemma CanUseProvider_returns (R : Runtime) (provider : loc) (s : State) :
  exists ok s', CanUseProvider R provider s = (Returns ok, s').
Proof.
  rewrite CanUseProvider_eq. cbv zeta.
  destruct (Minute <=? _); eexists _, _; reflexivity.
Qed.

Lemma CanUseProvider_frame (R : Runtime) (provider : loc) (s s' : State) ok :
  CanUseProvider R provider s = (Returns ok, s') ->
  providers s' = providers s /\ calls s' = calls s /\
  forall a, LastUsed (heap s' a) = LastUsed (heap s a).
Proof.
  rewrite CanUseProvider_eq. cbv zeta.
  destruct (Minute <=? _); intros [= <- <-]; simpl; repeat split; try done.
  intros a. destruct (decide (provider = a)) as [->|Hne].
  - rewrite fn_lookup_insert. reflexivity.
  - rewrite fn_lookup_insert_ne; done.
Qed.

Lemma scan_denied_frame (R : Runtime) (s s' : State) l :
  scan_denied R s l s' ->
  providers s' = providers s /\ calls s' = calls s /\
  forall a, LastUsed (heap s' a) = LastUsed (heap s a).
Proof.
  induction 1 as [s|s provider l s1 s2 Hcheck _ IH]; [done|].
  apply CanUseProvider_frame in Hcheck as (Hp & Hc & Hu).
  destruct IH as (Hp' & Hc' & Hu').
  repeat split; [congruence|congruence|].
  intros a. rewrite Hu', Hu. reflexivity.
Qed.

Lemma SelectProvider_scan_spec (R : Runtime) (l : list loc) (s : State) :
  exists found s',
    SelectProvider_scan R l s = (Returns found, s') /\
    match found with
    | Some provider =>
        exists before after s1,
          l = before ++ provider :: after /\
          scan_denied R s before s1 /\
          CanUseProvider R provider s1 = (Returns true, s')
    | None => scan_denied R s l s'
    end.
Proof.
  revert s. induction l as [|a l IH]; intros s.
  - exists None, s. split; [reflexivity|constructor].
  - destruct (CanUseProvider_returns R a s) as (ok & s1 & Hcheck).
    cbn [SelectProvider_scan]. unfold bind at 1. rewrite Hcheck.
    destruct ok.
    + exists (Some a), s1. split; [reflexivity|].
      exists [], l, s. repeat split; [constructor|done].
    + destruct (IH s1) as (found & s' & Hrun & Hspec).
      exists found, s'. split; [exact Hrun|].
      destruct found as [provider|].
      * destruct Hspec as (before & after & s2 & -> & Hden & Hok).
        exists (a :: before), after, s2. repeat split; [|done].
        econstructor; eassumption.
      * econstructor; eassumption.
Qed.

Lemma SelectProvider_leastRecent_spec (h : loc -> Provider) (rest : list loc) :
  forall first,
    let chosen := SelectProvider_leastRecent h first rest in
    chosen ∈ first :: rest /\
    forall other, other ∈ first :: rest ->
      LastUsed (h chosen) <= LastUsed (h other).
Proof.
  induction rest as [|a rest IH]; intros first; cbn [SelectProvider_leastRecent].
  - split; [left|]. intros other ->%list_elem_of_singleton. lia.
  - cbv zeta in IH.
    set (next := if Time_Before _ _ then a else first).
    destruct (IH next) as (Hin & Hmin).
    assert (Hnext : next ∈ first :: a :: rest /\
                    LastUsed (h next) <= LastUsed (h first) /\
                    LastUsed (h next) <= LastUsed (h a)).
    { subst next. unfold Time_Before.
      destruct (Z.ltb_spec (LastUsed (h a)) (LastUsed (h first)));
        (split; [|lia]).
      - right. left.
      - left. }
    destruct Hnext as (Hnin & Hf & Ha).
    split.
    + apply elem_of_cons in Hin as [->|Hin]; [done|].
      right. right. exact Hin.
    + intros other Hother.
      assert (Hm := Hmin next ltac:(left)).
      apply elem_of_cons in Hother as [->|Hother]; [lia|].
      apply elem_of_cons in Hother as [->|Hother]; [lia|].
      apply Hmin. by right.
Qed.

(** C1.  [SelectProvider] runs the rate-limit checks down the registry's
    sequence and returns the first destination whose check permits the call;
    when every check refuses and the registry is not empty it returns a
    destination of the registry whose last-used time is the earliest of all,
    whatever the priorities. *)
Theorem SelectProvider_first_permitted_or_coldest (R : Runtime) (s : State) :
  exists r s',
    SelectProvider R s = (Returns r, s') /\
    ((exists before provider after s1,
        providers s = before ++ provider :: after /\
        scan_denied R s before s1 /\
        CanUseProvider R provider s1 = (Returns true, s') /\
        r = inl provider)
     \/
     (scan_denied R s (providers s) s' /\
      match providers s with
      | [] => r = inr (fmt_Errorf "no providers available")
      | _ :: _ =>
          exists provider,
            r = inl provider /\ provider ∈ providers s /\
            forall other, other ∈ providers s ->
              LastUsed (heap s provider) <= LastUsed (heap s other)
      end)).
Proof.
  destruct (SelectProvider_scan_spec R (providers s) s) as (found & s' & Hrun & Hspec).
  unfold SelectProvider. unfold bind at 1, get at 1. unfold bind at 1.
  rewrite Hrun. destruct found as [provider|].
  - exists (inl provider), s'. split; [reflexivity|]. left.
    destruct Hspec as (before & after & s1 & Hl & Hden & Hok).
    exists before, provider, after, s1. done.
  - destruct (scan_denied_frame _ _ _ _ Hspec) as (Hp & _ & Hu).
    unfold bind, get. rewrite Hp.
    destruct (providers s) as [|first rest] eqn:Hl.
    + eexists _, s'. split; [reflexivity|]. right. done.
    + eexists _, s'. split; [reflexivity|]. right. split; [done|].
      destruct (SelectProvider_leastRecent_spec (heap s') rest first) as (Hin & Hmin).
      eexists. split; [reflexivity|]. split; [exact Hin|].
      intros other Hother. rewrite <- !Hu. apply Hmin, Hother.
Qed.

(** ** The masked listing *)

Lemma GetProviders_loop_spec (h : loc -> Provider) (l : list loc) :
  forall (done : list Provider),
    GetProviders_loop h (length done) l
      (done ++ replicate (length l) Provider_zero)
    = done ++ map (fun a => masked (h a)) l.
Proof.
  induction l as [|a l IH]; intros done; cbn [GetProviders_loop length replicate map].
  - reflexivity.
  - rewrite insert_app_r_alt by lia. rewrite alter_app_r_alt by lia.
    rewrite Nat.sub_diag. cbn [insert list_insert alter list_alter].
    specialize (IH (done ++ [masked (h a)])).
    rewrite length_app, Nat.add_1_r in IH. cbn [length] in IH.
    rewrite <- !app_assoc in IH. exact IH.
Qed.

Lemma GetProviders_eq (s : State) :
  GetProviders s = (Returns (map (fun a => masked (heap s a)) (providers s)), s).
Proof.
  unfold GetProviders. run_monad.
  pose proof (GetProviders_loop_spec (heap s) (providers s) []) as Hloop.
  cbn [length app] in Hloop. rewrite Hloop. reflexivity.
Qed.

(** C10.  [GetProviders] returns as many values as the registry has
    entries, in the registry's order; the value at an index has the mask as
    its APIKey and, in every other field, what the stored provider at that
    index has; the state (every stored provider, the registry) is what it
    was. *)
Theorem GetProviders_masks_keys (s : State) :
  exists out,
    GetProviders s = (Returns out, s) /\
    length out = length (providers s) /\
    (forall i a, providers s !! i = Some a ->
       exists q,
         out !! i = Some q /\
         APIKey q = "***" /\
         Name q = Name (heap s a) /\
         Type_ q = Type_ (heap s a) /\
         BaseURL q = BaseURL (heap s a) /\
         Model q = Model (heap s a) /\
         Priority q = Priority (heap s a) /\
         RequestsPerMinute q = RequestsPerMinute (heap s a) /\
         RequestCount q = RequestCount (heap s a) /\
         LastReset q = LastReset (heap s a) /\
         TotalRequests q = TotalRequests (heap s a) /\
         Errors q = Errors (heap s a) /\
         LastUsed q = LastUsed (heap s a)) /\
    (forall q, q ∈ out -> APIKey q = "***").
Proof.
  eexists. split; [apply GetProviders_eq|].
  split; [apply length_map|]. split.
  - intros i a Hi. eexists. split; [rewrite list_lookup_fmap, Hi; reflexivity|].
    unfold masked.
    cbn [set_APIKey APIKey Name Type_ BaseURL Model Priority RequestsPerMinute
           RequestCount LastReset TotalRequests Errors LastUsed].
    repeat split.
  - intros q (a & -> & _)%list_elem_of_fmap. reflexivity.
Qed.

(** ** Translation to the structured-turn family *)

Lemma last_cons {A} (x d : A) (l : list A) : List.last (x :: l) d = List.last l x.
Proof.
  revert x d. induction l as [|y l IH]; intros x d; [reflexivity|].
  change (List.last (x :: y :: l) d) with (List.last (y :: l) d).
  rewrite (IH y d), (IH y x). reflexivity.
Qed.

Lemma system_texts_cons (m : ChatMessage) (msgs : list ChatMessage) :
  system_texts (m :: msgs) =
  if String.eqb (Role m) "system" then text_of m :: system_texts msgs
  else system_texts msgs.
Proof.
  unfold system_texts. cbn [List.filter]. unfold is_system at 1.
  destruct (String.eqb (Role m) "system"); reflexivity.
Qed.

Lemma turns_cons (m : ChatMessage) (msgs : list ChatMessage) :
  turns (m :: msgs) =
  if String.eqb (Role m) "system" then turns msgs
  else {[ "role" := Role m; "content" := text_of m ]} :: turns msgs.
Proof.
  unfold turns. cbn [List.filter]. unfold is_system at 1.
  destruct (String.eqb (Role m) "system"); reflexivity.
Qed.

Lemma ConvertToProviderFormat_loop_plain (msgs : list ChatMessage) :
  Forall plain_text msgs ->
  forall systemMsg messages s,
    ConvertToProviderFormat_loop msgs systemMsg messages s =
    (Returns (List.last (system_texts msgs) systemMsg, messages ++ turns msgs), s).
Proof.
  induction 1 as [|m msgs [t Ht] _ IH]; intros systemMsg messages s.
  - cbn. rewrite app_nil_r. reflexivity.
  - cbn [ConvertToProviderFormat_loop].
    rewrite system_texts_cons, turns_cons. unfold text_of. rewrite Ht.
    destruct (String.eqb (Role m) "system");
      unfold bind at 1; cbn [assert_string]; unfold ret at 1; rewrite IH.
    + rewrite last_cons. reflexivity.
    + rewrite <- app_assoc. reflexivity.
Qed.

Lemma ConvertToProviderFormat_loop_multimodal (msgs : list ChatMessage) :
  Exists multimodal msgs ->
  forall systemMsg messages s,
    exists msg, ConvertToProviderFormat_loop msgs systemMsg messages s = (Panics msg, s).
Proof.
  intros Hex. induction msgs as [|m msgs IH]; intros systemMsg messages s.
  - inversion Hex.
  - cbn [ConvertToProviderFormat_loop].
    destruct (MsgContent m) as [t|parts] eqn:Hc.
    + assert (Hrest : Exists multimodal msgs).
      { inversion Hex as [? ? [parts Hp]|]; [congruence|assumption]. }
      destruct (String.eqb (Role m) "system"); unfold bind at 1; cbn [assert_string];
        unfold ret at 1; apply IH, Hrest.
    + destruct (String.eqb (Role m) "system"); unfold bind at 1; cbn [assert_string];
        unfold panic; eexists; reflexivity.
Qed.

Lemma anthropic_not_openai_family :
  String.eqb ProviderAnthropic ProviderGroq || String.eqb ProviderAnthropic ProviderOpenAI
  = false.
Proof. reflexivity. Qed.

(** C4, as the code has it.  For a provider of the structured-turn family
    and messages that are all plain text, of which one at least has the
    system role: the top-level system field is the content of the last
    system-role message (and is left out when that content is empty), no
    system-role message stays in the list, and the other messages become
    role+content pairs in their order. *)
Theorem Anthropic_last_system_message_wins (R : Runtime) (provider : loc)
    (req : ChatRequest) (s : State) (earlier : list string) (final : string) :
  Type_ (heap s provider) = ProviderAnthropic ->
  Forall plain_text (Messages req) ->
  system_texts (Messages req) = earlier ++ [final] ->
  let p := heap s provider in
  let body : gmap string wire_value :=
    {[ "model" := WString (Model p);
       "max_tokens" := WInt (MaxTokens req);
       "temperature" := WFloat (Temperature req);
       "messages" := WStringMaps (turns (Messages req)) ]} in
  ConvertToProviderFormat R provider req s =
  (Returns (json_Marshal R
              (if String.eqb final "" then body
               else <["system" := WString final]> body)), s).
Proof.
  intros Hty Hplain Hsys p body.
  unfold ConvertToProviderFormat. unfold bind at 1, load at 1. cbv beta iota.
  rewrite Hty, anthropic_not_openai_family.
  change (String.eqb ProviderAnthropic ProviderAnthropic) with true. cbv iota.
  unfold bind at 1. rewrite (ConvertToProviderFormat_loop_plain _ Hplain).
  cbn [fst snd app]. rewrite Hsys, last_last. reflexivity.
Qed.

Lemma Anthropic_last_system_message_wins_witness :
  exists wire,
    ConvertToProviderFormat R200 1%nat
      (request [system_msg "A"; system_msg "B"; user_msg "hi"]) (one_provider claude)
    = (Returns (inl wire), one_provider claude) /\
    wire !! "system" = Some (WString "B").
Proof.
  eexists. split.
  - apply (Anthropic_last_system_message_wins R200 1%nat
             (request [system_msg "A"; system_msg "B"; user_msg "hi"])
             (one_provider claude) ["A"] "B").
    + reflexivity.
    + repeat constructor; eexists; reflexivity.
    + reflexivity.
  - vm_compute. reflexivity.
Defined.

(** C4, as stated, fails: of two system-role messages the first is not the
    one that reaches the system field. *)
Lemma first_system_message_not_honoured :
  exists wire,
    ConvertToProviderFormat R200 1%nat
      (request [system_msg "A"; system_msg "B"; user_msg "hi"]) (one_provider claude)
    = (Returns (inl wire), one_provider claude) /\
    wire !! "system" = Some (WString "B") /\
    wire !! "system" <> Some (WString "A").
Proof.
  eexists. split; [vm_compute; reflexivity|].
  split; [vm_compute; reflexivity|].
  vm_compute. intros [=].
Qed.

(** C5, what the code does.  For a provider of the structured-turn family
    and a request one of whose messages carries a list of parts,
    [ConvertToProviderFormat] does not return: the type assertion panics. *)
Theorem Anthropic_multimodal_panics (R : Runtime) (provider : loc)
    (req : ChatRequest) (s : State) :
  Type_ (heap s provider) = ProviderAnthropic ->
  Exists multimodal (Messages req) ->
  exists msg, ConvertToProviderFormat R provider req s = (Panics msg, s).
Proof.
  intros Hty Hex.
  unfold ConvertToProviderFormat. unfold bind at 1, load at 1. cbv beta iota.
  rewrite Hty, anthropic_not_openai_family.
  change (String.eqb ProviderAnthropic ProviderAnthropic) with true. cbv iota.
  destruct (ConvertToProviderFormat_loop_multimodal _ Hex "" [] s) as [msg Hloop].
  exists msg. unfold bind. rewrite Hloop. reflexivity.
Qed.

Lemma Anthropic_multimodal_panics_witness :
  exists msg,
    ConvertToProviderFormat R200 1%nat (request [user_msg "hi"; image_msg])
      (one_provider claude)
    = (Panics msg, one_provider claude).
Proof.
  apply (Anthropic_multimodal_panics R200 1%nat (request [user_msg "hi"; image_msg])
           (one_provider claude)).
  - reflexivity.
  - right. left. eexists. reflexivity.
Defined.

(** ** Parsing and the round trip *)

Lemma ParseProviderResponse_openai (R : Runtime) (provider : loc)
    (body : list Byte.byte) (s : State) (resp : openaiResp) :
  openai_family (Type_ (heap s provider)) = true ->
  json_Unmarshal_openai R body = inl resp ->
  ParseProviderResponse R provider body s =
  (Returns (inl (mkChatResponse (oID resp)
                   (match Choices resp with c :: _ => ChoiceContent c | [] => "" end)
                   (oModel resp) (oUsage resp) (Name (heap s provider)))), s).
Proof.
  unfold openai_family. intros Hty Hdec.
  unfold ParseProviderResponse. unfold bind at 1, load at 1. cbv beta iota.
  rewrite Hty, Hdec. destruct (Choices resp); reflexivity.
Qed.

Lemma ParseProviderResponse_anthropic (R : Runtime) (provider : loc)
    (body : list Byte.byte) (s : State) (resp : anthropicResp) :
  Type_ (heap s provider) = ProviderAnthropic ->
  json_Unmarshal_anthropic R body = inl resp ->
  ParseProviderResponse R provider body s =
  (Returns (inl (mkChatResponse (aID resp)
                   (match aContent resp with c :: _ => BlockText c | [] => "" end)
                   (aModel resp)
                   (mkUsage (InputTokens resp) (OutputTokens resp)
                      (int_add (InputTokens resp) (OutputTokens resp)))
                   (Name (heap s provider)))), s).
Proof.
  intros Hty Hdec.
  unfold ParseProviderResponse. unfold bind at 1, load at 1. cbv beta iota.
  rewrite Hty, anthropic_not_openai_family.
  change (String.eqb ProviderAnthropic ProviderAnthropic) with true. cbv iota.
  rewrite Hdec. destruct (aContent resp); reflexivity.
Qed.

Lemma ParseProviderResponse_returns (R : Runtime) (provider : loc)
    (body : list Byte.byte) (s : State) :
  exists r, ParseProviderResponse R provider body s = (Returns r, s).
Proof.
  unfold ParseProviderResponse. unfold bind at 1, load at 1. cbv beta iota.
  destruct (_ || _).
  - destruct (json_Unmarshal_openai R body); eexists; reflexivity.
  - destruct (String.eqb _ ProviderAnthropic); [|eexists; reflexivity].
    destruct (json_Unmarshal_anthropic R body); eexists; reflexivity.
Qed.

Lemma ConvertToProviderFormat_openai (R : Runtime) (provider : loc)
    (req : ChatRequest) (s : State) :
  openai_family (Type_ (heap s provider)) = true ->
  ConvertToProviderFormat R provider req s =
  (Returns (json_Marshal R
              {[ "model" := WString (Model (heap s provider));
                 "messages" := WMessages (Messages req);
                 "temperature" := WFloat (Temperature req);
                 "max_tokens" := WInt (MaxTokens req);
                 "stream" := WBool (Stream req) ]}), s).
Proof.
  unfold openai_family. intros Hty.
  unfold ConvertToProviderFormat. unfold bind at 1, load at 1. cbv beta iota.
  rewrite Hty. reflexivity.
Qed.

(** C8, as the code has it.  Chat-completions family: the request goes out
    with its messages unchanged, and a body that decodes to a response with
    a first choice gives that choice's content and the usage triple of the
    wire untouched; its total is the sum of the two counts exactly when the
    wire says so.  Structured-turn family: a request of plain-text messages
    is translated, and a body that decodes to a response with a first block
    gives that block's text, prompt = input, completion = output and
    total = input + output in [int] arithmetic, which is the sum when the
    sum fits. *)
Theorem round_trip (R : Runtime) (provider : loc) (req : ChatRequest) (s : State) :
  (openai_family (Type_ (heap s provider)) = true ->
   (exists wire,
      ConvertToProviderFormat R provider req s = (Returns (json_Marshal R wire), s) /\
      wire !! "messages" = Some (WMessages (Messages req))) /\
   forall body id model text others usage,
     json_Unmarshal_openai R body
     = inl (mkOpenaiResp id model (mkOpenaiChoice text :: others) usage) ->
     exists resp,
       ParseProviderResponse R provider body s = (Returns (inl resp), s) /\
       RespContent resp = text /\
       RespUsage resp = usage /\
       (TotalTokens usage = PromptTokens usage + CompletionTokens usage ->
        TotalTokens (RespUsage resp)
        = PromptTokens (RespUsage resp) + CompletionTokens (RespUsage resp)))
  /\
  (Type_ (heap s provider) = ProviderAnthropic ->
   (Forall plain_text (Messages req) ->
    exists wire,
      ConvertToProviderFormat R provider req s = (Returns (json_Marshal R wire), s) /\
      wire !! "messages" = Some (WStringMaps (turns (Messages req)))) /\
   forall body id model text others input output,
     json_Unmarshal_anthropic R body
     = inl (mkAnthropicResp id model (mkAnthropicBlock text :: others) input output) ->
     exists resp,
       ParseProviderResponse R provider body s = (Returns (inl resp), s) /\
       RespContent resp = text /\
       PromptTokens (RespUsage resp) = input /\
       CompletionTokens (RespUsage resp) = output /\
       TotalTokens (RespUsage resp) = int_add input output /\
       (int_range (input + output) ->
        TotalTokens (RespUsage resp) = input + output)).
Proof.
  split.
  - intros Hty. split.
    + eexists. split; [apply ConvertToProviderFormat_openai, Hty|].
      by simplify_map_eq.
    + intros body id model text others usage Hdec.
      eexists. split; [apply (ParseProviderResponse_openai _ _ _ _ _ Hty Hdec)|].
      cbn. repeat split. intros Hsum. exact Hsum.
  - intros Hty. split.
    + intros Hplain.
      assert (Hconv : exists sm,
                ConvertToProviderFormat_loop (Messages req) "" [] s
                = (Returns (sm, turns (Messages req)), s)).
      { eexists. rewrite (ConvertToProviderFormat_loop_plain _ Hplain). reflexivity. }
      destruct Hconv as [sm Hloop].
      unfold ConvertToProviderFormat. unfold bind at 1, load at 1. cbv beta iota.
      rewrite Hty, anthropic_not_openai_family.
      change (String.eqb ProviderAnthropic ProviderAnthropic) with true. cbv iota.
      unfold bind at 1. rewrite Hloop. cbn [fst snd].
      eexists. split; [reflexivity|].
      destruct (String.eqb sm ""); by simplify_map_eq.
    + intros body id model text others input output Hdec.
      eexists. split; [apply (ParseProviderResponse_anthropic _ _ _ _ _ Hty Hdec)|].
      cbn. repeat split. apply int_add_in_range.
Qed.

Lemma round_trip_witness :
  (exists resp,
     ParseProviderResponse R200 1%nat [] (one_provider gpt)
     = (Returns (inl resp), one_provider gpt) /\
     RespContent resp = "hello" /\ RespUsage resp = mkUsage 1 2 7) /\
  (exists resp,
     ParseProviderResponse R200 1%nat [] (one_provider claude)
     = (Returns (inl resp), one_provider claude) /\
     RespContent resp = "hello" /\ TotalTokens (RespUsage resp) = 3 + 4).
Proof.
  destruct (round_trip R200 1%nat (request [user_msg "hi"]) (one_provider gpt))
    as [Hopenai _].
  destruct (round_trip R200 1%nat (request [user_msg "hi"]) (one_provider claude))
    as [_ Hanthropic].
  split.
  - destruct (Hopenai eq_refl) as [_ Hparse].
    destruct (Hparse [] "id-1" "gpt" "hello" [] (mkUsage 1 2 7) eq_refl)
      as (resp & Hrun & Hc & Hu & _).
    exists resp. auto.
  - destruct (Hanthropic eq_refl) as [_ Hparse].
    destruct (Hparse [] "id-2" "claude" "hello" [] 3 4 eq_refl)
      as (resp & Hrun & Hc & _ & _ & _ & Hsum).
    exists resp. repeat split; [exact Hrun|exact Hc|].
    apply Hsum. unfold int_range. lia.
Defined.

(** C8, as stated, fails.  The chat-completions total is the one of the
    wire, whatever the two counts are; and the structured-turn sum wraps
    around. *)
Lemma usage_total_is_not_always_the_sum :
  (exists resp,
     ParseProviderResponse R200 1%nat [] (one_provider gpt)
     = (Returns (inl resp), one_provider gpt) /\
     PromptTokens (RespUsage resp) = 1 /\
     CompletionTokens (RespUsage resp) = 2 /\
     TotalTokens (RespUsage resp) <> 1 + 2) /\
  (exists resp,
     ParseProviderResponse R200_huge 1%nat [] (one_provider claude)
     = (Returns (inl resp), one_provider claude) /\
     PromptTokens (RespUsage resp) = 2 ^ 63 - 1 /\
     CompletionTokens (RespUsage resp) = 1 /\
     TotalTokens (RespUsage resp) <> (2 ^ 63 - 1) + 1).
Proof.
  split; eexists; (split; [vm_compute; reflexivity|]);
    (split; [reflexivity|]); (split; [reflexivity|]); vm_compute; intros [=].
Qed.

(** ** Dispatch *)

Lemma UpdateProviderStats_eq (R : Runtime) (provider : loc) (success : bool) (s : State) :
  UpdateProviderStats R provider success s =
  (Returns tt,
   mkState (<[provider := recorded (heap s provider) success (wall R (clock s))]> (heap s))
     (providers s) (S (clock s)) (calls s)).
Proof. reflexivity. Qed.






(** ** The empty registry *)

(** C9, as the code has it.  On an empty registry [Chat] makes no pass of
    its loop: it does not select, touches nothing, and returns the
    exhaustion error with no last error; the error of the selector is what
    [SelectProvider] itself returns there. *)
Theorem Chat_empty_registry (R : Runtime) (req : ChatRequest) (s : State) :
  providers s = [] ->
  Chat R req s
  = (Returns (inr (fmt_Errorf "all providers failed, last error: <nil>")), s) /\
  SelectProvider R s = (Returns (inr (fmt_Errorf "no providers available")), s).
Proof.
  intros Hempty. split.
  - unfold Chat. unfold bind, get. rewrite Hempty. reflexivity.
  - unfold SelectProvider. unfold bind, get. rewrite Hempty. cbn.
    rewrite Hempty. reflexivity.
Qed.

Lemma Chat_empty_registry_witness :
  Chat R200 (request [user_msg "hi"]) (empty_pool (fun _ => gpt))
  = (Returns (inr (fmt_Errorf "all providers failed, last error: <nil>")),
     empty_pool (fun _ => gpt)).
Proof.
  apply (Chat_empty_registry R200 (request [user_msg "hi"]) (empty_pool (fun _ => gpt))).
  reflexivity.
Defined.

(** C9, as stated, fails: the error a caller gets on an empty registry is
    not the selector's. *)
Lemma Chat_empty_registry_not_the_selector_error :
  exists e,
    Chat R200 (request [user_msg "hi"]) (empty_pool (fun _ => gpt))
    = (Returns (inr e), empty_pool (fun _ => gpt)) /\
    Error e <> "no providers available".
Proof.
  eexists. split; [reflexivity|]. vm_compute. intros [=].
Qed.

(** ** Unknown protocols *)




Lemma SelectProvider_head_permitted (R : Runtime) (s : State) (provider : loc)
    (rest : list loc) :
  providers s = provider :: rest ->
  0 <= RequestCount (heap s provider) < RequestsPerMinute (heap s provider) ->
  exists s1,
    SelectProvider R s = (Returns (inl provider), s1) /\
    providers s1 = providers s /\ calls s1 = calls s /\
    (forall a, window_erased (heap s1 a) = window_erased (heap s a)) /\
    0 <= RequestCount (heap s1 provider) < RequestsPerMinute (heap s1 provider).
Proof.
  intros Hp Hq. unfold SelectProvider. unfold bind at 1, get at 1. rewrite Hp.
  cbn [SelectProvider_scan]. unfold bind at 1. unfold bind at 1.
  rewrite CanUseProvider_eq. cbv zeta.
  destruct (Minute <=? _).
  - replace (0 <? RequestsPerMinute (heap s provider)) with true
      by (symmetry; apply Z.ltb_lt; lia).
    eexists. split; [reflexivity|]. cbn [providers calls heap].
    rewrite fn_lookup_insert. cbn. repeat split; try done; try lia.
    intros a. destruct (decide (provider = a)) as [->|Hne].
    + rewrite fn_lookup_insert. reflexivity.
    + rewrite fn_lookup_insert_ne; done.
  - replace (RequestCount (heap s provider) <? RequestsPerMinute (heap s provider))
      with true by (symmetry; apply Z.ltb_lt; lia).
    eexists. split; [reflexivity|]. cbn. repeat split; try done; lia.
Qed.





(** ** The order of the registry *)

Section insertion_sort.
Context {A : Type} (less : A -> A -> bool) (before : A -> A -> Prop).
Hypothesis less_true : forall x y, less x y = true -> before x y.
Hypothesis less_false : forall x y, less x y = false -> before y x.
Hypothesis before_trans : forall x y z, before x y -> before y z -> before x z.

Lemma insertionSort_insert_perm (x : A) (acc : list A) :
  insertionSort_insert less x acc ≡ₚ x :: acc.
Proof.
  induction acc as [|y acc IH]; cbn [insertionSort_insert]; [done|].
  destruct (less x y); [|done].
  rewrite IH. apply Permutation_swap.
Qed.

Lemma insertionSort_insert_sorted (x : A) (acc : list A) :
  StronglySorted (flip before) acc ->
  StronglySorted (flip before) (insertionSort_insert less x acc).
Proof.
  induction acc as [|y acc IH]; cbn [insertionSort_insert]; intros Hs.
  - repeat constructor.
  - apply StronglySorted_cons in Hs as [Hy Hs].
    destruct (less x y) eqn:Hless.
    + apply StronglySorted_cons. split; [|apply IH, Hs].
      rewrite insertionSort_insert_perm. constructor; [|exact Hy].
      apply less_true, Hless.
    + apply StronglySorted_cons. split.
      * constructor; [apply less_false, Hless|].
        eapply Forall_impl; [exact Hy|]. intros z Hz. unfold flip in *.
        eapply before_trans; [exact Hz|]. apply less_false, Hless.
      * apply StronglySorted_cons. done.
Qed.

Lemma StronglySorted_rev (l : list A) :
  StronglySorted (flip before) l -> StronglySorted before (rev l).
Proof.
  induction l as [|x l IH]; intros Hs; [constructor|].
  apply StronglySorted_cons in Hs as [Hx Hs]. cbn [rev].
  apply StronglySorted_app_2; [|apply IH, Hs|repeat constructor].
  intros x1 x2 Hx1 ->%list_elem_of_singleton.
  rewrite Forall_forall in Hx. apply Hx.
  apply list_elem_of_In in Hx1. apply in_rev in Hx1.
  apply list_elem_of_In, Hx1.
Qed.

Lemma insertionSort_from_perm (todo : list A) :
  forall acc, insertionSort_from less acc todo ≡ₚ acc ++ todo.
Proof.
  induction todo as [|x todo IH]; intros acc; cbn [insertionSort_from].
  - rewrite app_nil_r. symmetry. apply Permutation_rev.
  - rewrite IH, insertionSort_insert_perm. apply Permutation_middle.
Qed.

Lemma insertionSort_from_sorted (todo : list A) :
  forall acc,
    StronglySorted (flip before) acc ->
    StronglySorted before (insertionSort_from less acc todo).
Proof.
  induction todo as [|x todo IH]; intros acc Hs; cbn [insertionSort_from].
  - apply StronglySorted_rev, Hs.
  - apply IH, insertionSort_insert_sorted, Hs.
Qed.
End insertion_sort.

Lemma AddProvider_less_true (h : loc -> Provider) (a b : loc) :
  AddProvider_less h a b = true -> may_precede h a b.
Proof.
  unfold AddProvider_less, may_precede.
  destruct (Z.eqb_spec (Priority (h a)) (Priority (h b))) as [Heq|Hne].
  - intros Hg%String.eqb_eq. right. done.
  - intros Hlt%Z.ltb_lt. left. exact Hlt.
Qed.

Lemma AddProvider_less_false (h : loc -> Provider) (a b : loc) :
  AddProvider_less h a b = false -> may_precede h b a.
Proof.
  unfold AddProvider_less, may_precede.
  destruct (Z.eqb_spec (Priority (h a)) (Priority (h b))) as [Heq|Hne].
  - intros Hg%String.eqb_neq. right. split; [done|]. intros Ha. done.
  - intros Hge%Z.ltb_ge. left. lia.
Qed.

Lemma may_precede_trans (h : loc -> Provider) (a b c : loc) :
  may_precede h a b -> may_precede h b c -> may_precede h a c.
Proof.
  unfold may_precede. intros [Hab|[Hab Hg]] [Hbc|[Hbc Hg']].
  - left. lia.
  - left. lia.
  - left. lia.
  - right. split; [congruence|]. auto.
Qed.

Lemma insertionSortLessFunc_sorts_consistently :
  sorts_consistently (@insertionSortLessFunc).
Proof.
  intros A less before l Htrue Hfalse Htrans. unfold insertionSortLessFunc. split.
  - apply (insertionSort_from_perm less l []).
  - apply (insertionSort_from_sorted less before Htrue Hfalse Htrans l []).
    constructor.
Qed.

Lemma sort_Slice_sorts (R : Runtime) {A} (less : A -> A -> bool)
    (before : A -> A -> Prop) (l : list A) :
  (length l <= maxInsertion)%nat \/ sorts_consistently (pdqsort_func R) ->
  (forall x y, less x y = true -> before x y) ->
  (forall x y, less x y = false -> before y x) ->
  (forall x y z, before x y -> before y z -> before x z) ->
  sort_Slice R less l ≡ₚ l /\ StronglySorted before (sort_Slice R less l).
Proof.
  intros Hsort Htrue Hfalse Htrans. unfold sort_Slice.
  destruct (Nat.leb_spec (length l) maxInsertion) as [Hle|Hgt].
  - apply insertionSortLessFunc_sorts_consistently; assumption.
  - destruct Hsort as [Hle|Hsort]; [lia|]. apply Hsort; assumption.
Qed.

Lemma AddProvider_step (R : Runtime) (provider : loc) (s : State) :
  (length (providers s) < maxInsertion)%nat \/ sorts_consistently (pdqsort_func R) ->
  exists s',
    AddProvider R provider s = (Returns tt, s') /\
    providers s' ≡ₚ providers s ++ [provider] /\
    StronglySorted (may_precede (heap s')) (providers s') /\
    (forall a, window_erased (heap s' a) = window_erased (heap s a)).
Proof.
  intros Hsort. unfold AddProvider. run_monad.
  eexists. split; [reflexivity|]. cbn [providers heap].
  match goal with
  | |- sort_Slice R ?less ?l ≡ₚ _ /\ StronglySorted (may_precede ?h) _ /\ _ =>
      destruct (sort_Slice_sorts R less (may_precede h) l) as [Hperm Hs]
  end.
  - destruct Hsort as [Hlen|Hsort]; [left|right; exact Hsort].
    rewrite length_app. cbn [length]. lia.
  - apply AddProvider_less_true.
  - apply AddProvider_less_false.
  - apply may_precede_trans.
  - split; [exact Hperm|]. split; [exact Hs|].
    intros a. destruct (decide (provider = a)) as [->|Hne].
    + rewrite fn_lookup_insert. reflexivity.
    + rewrite fn_lookup_insert_ne; done.
Qed.

Lemma AddProviders_spec (R : Runtime) (l : list loc) :
  forall s,
    (length (providers s) + length l <= maxInsertion)%nat
    \/ sorts_consistently (pdqsort_func R) ->
    StronglySorted (may_precede (heap s)) (providers s) ->
    exists s',
      AddProviders R l s = (Returns tt, s') /\
      providers s' ≡ₚ providers s ++ l /\
      StronglySorted (may_precede (heap s')) (providers s') /\
      (forall a, window_erased (heap s' a) = window_erased (heap s a)).
Proof.
  induction l as [|provider l IH]; intros s Hsort Hs.
  - exists s. rewrite app_nil_r. done.
  - cbn [length] in Hsort.
    destruct (AddProvider_step R provider s) as (s1 & Hrun & Hperm & Hs1 & Hw1).
    { destruct Hsort as [Hlen|Hsort]; [left; lia|right; exact Hsort]. }
    destruct (IH s1) as (s' & Hrun' & Hperm' & Hs' & Hw'); [|exact Hs1|].
    { destruct Hsort as [Hlen|Hsort]; [left|right; exact Hsort].
      rewrite Hperm, length_app. cbn [length]. lia. }
    exists s'. cbn [AddProviders]. unfold bind. rewrite Hrun.
    split; [exact Hrun'|]. split; [|split; [exact Hs'|]].
    + rewrite Hperm', Hperm, <- app_assoc. reflexivity.
    + intros a. rewrite Hw'. apply Hw1.
Qed.

(** C7, as the code has it.  After every sequence of [AddProvider] calls on
    an empty registry (of at most twelve calls, or of any length when the
    quicksort of [sort.Slice] orders as its insertion sort does), the
    registry holds the destinations added, any two of its entries stand in
    non-decreasing priority, and of two entries of the same priority a Groq
    one never comes after one of another type.  Nothing is said of two
    entries of the same priority and the same type. *)
Theorem AddProviders_order (R : Runtime) (l : list loc) (s : State) :
  providers s = [] ->
  (length l <= maxInsertion)%nat \/ sorts_consistently (pdqsort_func R) ->
  exists s',
    AddProviders R l s = (Returns tt, s') /\
    providers s' ≡ₚ l /\
    StronglySorted (may_precede (heap s')) (providers s') /\
    forall i j a b,
      (i < j)%nat -> providers s' !! i = Some a -> providers s' !! j = Some b ->
      Priority (heap s' a) <= Priority (heap s' b) /\
      (Priority (heap s' a) = Priority (heap s' b) ->
       Type_ (heap s' b) = ProviderGroq -> Type_ (heap s' a) = ProviderGroq).
Proof.
  intros Hempty Hsort.
  destruct (AddProviders_spec R l s) as (s' & Hrun & Hperm & Hs & _).
  { rewrite Hempty. exact Hsort. }
  { rewrite Hempty. constructor. }
  exists s'. rewrite Hempty in Hperm. split; [exact Hrun|].
  split; [exact Hperm|]. split; [exact Hs|].
  intros i j a b Hij Ha Hb.
  assert (Hab : may_precede (heap s') a b).
  { apply (take_drop_middle _ _ _) in Hb as Hsplit.
    rewrite <- Hsplit in Hs. apply StronglySorted_app in Hs as (Hcross & _ & _).
    apply Hcross; [|left].
    apply list_elem_of_lookup. exists i. rewrite lookup_take_lt by exact Hij. exact Ha. }
  destruct Hab as [Hlt|[Heq Hg]]; split; try lia; try done.
Qed.

Lemma AddProviders_order_witness :
  (exists s',
     AddProviders R200 [1%nat; 2%nat; 3%nat] (empty_pool (twins ProviderGroq))
     = (Returns tt, s') /\
     providers s' ≡ₚ [1%nat; 2%nat; 3%nat] /\
     StronglySorted (may_precede (heap s')) (providers s')) /\
  (exists s',
     AddProviders R200 (seq 1 13) (empty_pool (twins ProviderGroq))
     = (Returns tt, s') /\
     providers s' ≡ₚ seq 1 13 /\
     StronglySorted (may_precede (heap s')) (providers s')).
Proof.
  split.
  - destruct (AddProviders_order R200 [1%nat; 2%nat; 3%nat]
                (empty_pool (twins ProviderGroq)))
      as (s' & Hrun & Hperm & Hs & _).
    + reflexivity.
    + left. unfold maxInsertion. cbn [length]. lia.
    + exists s'. split; [exact Hrun|]. split; [exact Hperm|exact Hs].
  - destruct (AddProviders_order R200 (seq 1 13) (empty_pool (twins ProviderGroq)))
      as (s' & Hrun & Hperm & Hs & _).
    + reflexivity.
    + right. change (sorts_consistently (@insertionSortLessFunc)).
      exact insertionSortLessFunc_sorts_consistently.
    + exists s'. split; [exact Hrun|]. split; [exact Hperm|exact Hs].
Defined.

(** C7, as stated, fails.  The same two chat-completions destinations of
    priority 1 end in the order of their registration, whichever it was; and
    of two Groq destinations of priority 1 each is less than the other, so
    that they stand in one order after their registration and in the other
    after the next call. *)
Lemma equal_priority_same_type_order_is_not_fixed :
  (exists s12 s21,
     AddProviders R200 [1%nat; 2%nat] (empty_pool (twins ProviderOpenAI))
     = (Returns tt, s12) /\
     AddProviders R200 [2%nat; 1%nat] (empty_pool (twins ProviderOpenAI))
     = (Returns tt, s21) /\
     providers s12 = [1%nat; 2%nat] /\ providers s21 = [2%nat; 1%nat]) /\
  AddProvider_less (twins ProviderGroq) 1%nat 2%nat = true /\
  AddProvider_less (twins ProviderGroq) 2%nat 1%nat = true /\
  (exists s2 s3,
     AddProviders R200 [1%nat; 2%nat] (empty_pool (twins ProviderGroq))
     = (Returns tt, s2) /\
     AddProvider R200 3%nat s2 = (Returns tt, s3) /\
     providers s2 = [2%nat; 1%nat] /\ providers s3 = [1%nat; 2%nat; 3%nat]).
Proof.
  split; [|split; [reflexivity|split; [reflexivity|]]].
  - eexists _, _. split; [vm_compute; reflexivity|].
    split; [vm_compute; reflexivity|]. split; reflexivity.
  - eexists _, _. split; [vm_compute; reflexivity|].
    split; [vm_compute; reflexivity|]. split; reflexivity.
Qed.

(** * Further properties *)

(** ** Removal *)

Lemma RemoveProvider_find_spec (h : loc -> Provider) (name : string) (l : list loc) :
  forall i,
    match RemoveProvider_find h name i l with
    | Some k =>
        exists before a after,
          l = before ++ a :: after /\ k = (i + length before)%nat /\
          Name (h a) = name /\
          (forall b, b ∈ before -> Name (h b) <> name)
    | None => forall b, b ∈ l -> Name (h b) <> name
    end.
Proof.
  induction l as [|x l IH]; intros i; cbn [RemoveProvider_find].
  - intros b Hb. inversion Hb.
  - destruct (String.eqb_spec (Name (h x)) name) as [Heq|Hne].
    + exists [], x, l. cbn [length app]. rewrite Nat.add_0_r.
      repeat split; [exact Heq|]. intros b Hb. inversion Hb.
    + specialize (IH (S i)). destruct (RemoveProvider_find h name (S i) l) as [k|].
      * destruct IH as (before & a & after & -> & -> & Ha & Hbefore).
        exists (x :: before), a, after. cbn [length app].
        repeat split; [lia|exact Ha|].
        intros b [->|Hb]%elem_of_cons; [exact Hne|apply Hbefore, Hb].
      * intros b [->|Hb]%elem_of_cons; [exact Hne|apply IH, Hb].
Qed.

Lemma RemoveProvider_eq (name : string) (s : State) :
  RemoveProvider name s =
  match RemoveProvider_find (heap s) name 0 (providers s) with
  | Some i =>
      (Returns true,
       mkState (heap s) (take i (providers s) ++ drop (S i) (providers s))
         (clock s) (calls s))
  | None => (Returns false, s)
  end.
Proof.
  unfold RemoveProvider. unfold bind at 1, get at 1.
  destruct (RemoveProvider_find _ _ _ _); reflexivity.
Qed.

Lemma take_drop_split {A} (before after : list A) (a : A) :
  take (length before) (before ++ a :: after)
  ++ drop (S (length before)) (before ++ a :: after)
  = before ++ after.
Proof.
  rewrite take_app_length. rewrite cons_middle, app_assoc.
  rewrite drop_app_length'; [reflexivity|].
  rewrite length_app. cbn [length]. lia.
Qed.

(** What [RemoveProvider] does, by cases. *)
Lemma RemoveProvider_cases (name : string) (s : State) :
  (RemoveProvider name s = (Returns false, s) /\
   forall b, b ∈ providers s -> Name (heap s b) <> name)
  \/
  (exists before a after,
     providers s = before ++ a :: after /\
     Name (heap s a) = name /\
     (forall b, b ∈ before -> Name (heap s b) <> name) /\
     RemoveProvider name s
     = (Returns true, mkState (heap s) (before ++ after) (clock s) (calls s))).
Proof.
  rewrite RemoveProvider_eq.
  pose proof (RemoveProvider_find_spec (heap s) name (providers s) 0) as Hfind.
  destruct (RemoveProvider_find (heap s) name 0 (providers s)) as [k|].
  - right. destruct Hfind as (before & a & after & Hl & -> & Ha & Hbefore).
    exists before, a, after.
    split; [exact Hl|]. split; [exact Ha|]. split; [exact Hbefore|].
    rewrite Hl. cbn [Nat.add]. rewrite take_drop_split. reflexivity.
  - left. split; [reflexivity|exact Hfind].
Qed.

(** X1.  [RemoveProvider] returns false and changes nothing when no entry of
    the registry bears the name; otherwise it returns true and takes out the
    first entry that bears it, and that one only: the entries before and
    after it stay, in their order, and no provider object is touched. *)
Theorem RemoveProvider_first_match (name : string) (s : State) :
  exists ok s',
    RemoveProvider name s = (Returns ok, s') /\
    heap s' = heap s /\ clock s' = clock s /\ calls s' = calls s /\
    (ok = false ->
     s' = s /\ forall b, b ∈ providers s -> Name (heap s b) <> name) /\
    (ok = true ->
     exists before a after,
       providers s = before ++ a :: after /\
       Name (heap s a) = name /\
       (forall b, b ∈ before -> Name (heap s b) <> name) /\
       providers s' = before ++ after).
Proof.
  destruct (RemoveProvider_cases name s)
    as [[Hrun Hnone]|(before & a & after & Hl & Ha & Hbefore & Hrun)].
  - exists false, s. split; [exact Hrun|]. do 3 (split; [reflexivity|]).
    split; [|discriminate]. intros _. split; [reflexivity|exact Hnone].
  - eexists true, _. split; [exact Hrun|]. cbn [heap clock calls providers].
    do 3 (split; [reflexivity|]). split; [discriminate|]. intros _.
    exists before, a, after. done.
Qed.

(** X2.  Removal keeps the order of the registry: if the entries stood in
    non-decreasing priority, Groq first among equals, they still do. *)
Theorem RemoveProvider_keeps_order (name : string) (s : State) :
  StronglySorted (may_precede (heap s)) (providers s) ->
  exists ok s',
    RemoveProvider name s = (Returns ok, s') /\
    StronglySorted (may_precede (heap s')) (providers s').
Proof.
  intros Hs.
  destruct (RemoveProvider_cases name s)
    as [[Hrun Hnone]|(before & a & after & Hl & Ha & Hbefore & Hrun)].
  - exists false, s. split; [exact Hrun|exact Hs].
  - eexists true, _. split; [exact Hrun|]. cbn [heap providers].
    rewrite Hl in Hs. apply StronglySorted_app in Hs as (Hcross & Hb & Ha').
    apply StronglySorted_cons in Ha' as [_ Hafter].
    apply StronglySorted_app_2; [|exact Hb|exact Hafter].
    intros x1 x2 Hx1 Hx2. apply Hcross; [exact Hx1|]. right. exact Hx2.
Qed.

Lemma RemoveProvider_keeps_order_witness :
  exists ok s',
    RemoveProvider "b" three_providers = (Returns ok, s') /\
    StronglySorted (may_precede (heap s')) (providers s').
Proof.
  apply (RemoveProvider_keeps_order "b" three_providers).
  repeat constructor; left; cbn; lia.
Defined.

Lemma window_erased_Name (p q : Provider) :
  window_erased p = window_erased q -> Name p = Name q.
Proof. intros H. apply (f_equal Name) in H. exact H. Qed.

(** X3.  Registering a destination whose name no entry bears and then
    removing that name gives back the registry, up to the order of its
    entries: the removal succeeds and what is left is a rearrangement of
    what was there. *)
Theorem AddProvider_RemoveProvider (R : Runtime) (provider : loc) (s : State) :
  (length (providers s) < maxInsertion)%nat \/ sorts_consistently (pdqsort_func R) ->
  (forall b, b ∈ providers s -> Name (heap s b) <> Name (heap s provider)) ->
  exists s1 s2,
    AddProvider R provider s = (Returns tt, s1) /\
    RemoveProvider (Name (heap s provider)) s1 = (Returns true, s2) /\
    providers s2 ≡ₚ providers s /\
    provider ∉ providers s2.
Proof.
  intros Hsort Hfresh.
  destruct (AddProvider_step R provider s Hsort) as (s1 & Hadd & Hperm & _ & Hw).
  assert (Hname : forall b, Name (heap s1 b) = Name (heap s b))
    by (intros b; apply window_erased_Name, Hw).
  assert (Hin : provider ∈ providers s1).
  { rewrite Hperm. apply elem_of_app. right. left. }
  exists s1.
  destruct (RemoveProvider_cases (Name (heap s provider)) s1)
    as [[_ Hnone]|(before & a & after & Hl & Ha & _ & Hrun)].
  - exfalso. apply (Hnone provider Hin). apply Hname.
  - assert (Ha_in : a ∈ providers s ++ [provider]).
    { rewrite <- Hperm, Hl. apply elem_of_app. right. left. }
    assert (a = provider) as ->.
    { apply elem_of_app in Ha_in as [Hold|Hnew%list_elem_of_singleton]; [|exact Hnew].
      exfalso. apply (Hfresh a Hold). rewrite <- Hname. exact Ha. }
    eexists. split; [exact Hadd|]. split; [exact Hrun|]. cbn [providers].
    assert (Hrest : before ++ after ≡ₚ providers s).
    { apply (Permutation_cons_inv (a := provider)).
      rewrite Permutation_middle, <- Hl, Hperm.
      symmetry. apply Permutation_cons_append. }
    split; [exact Hrest|].
    rewrite Hrest. intros Hold. apply (Hfresh provider Hold). reflexivity.
Qed.

Lemma AddProvider_RemoveProvider_witness :
  exists s1 s2,
    AddProvider R200 3%nat (mkState (twins ProviderGroq) [1%nat] 0 0) = (Returns tt, s1) /\
    RemoveProvider "third" s1 = (Returns true, s2) /\
    providers s2 ≡ₚ [1%nat].
Proof.
  destruct (AddProvider_RemoveProvider R200 3%nat
              (mkState (twins ProviderGroq) [1%nat] 0 0))
    as (s1 & s2 & Hadd & Hrem & Hperm & _).
  - left. unfold maxInsertion. cbn. lia.
  - intros b ->%list_elem_of_singleton. cbn. discriminate.
  - exists s1, s2. split; [exact Hadd|]. split; [exact Hrem|exact Hperm].
Defined.

(** X4.  [ProviderCount] returns the number of entries of the registry
    and changes nothing.  After a registration (on a registry of fewer than
    twelve entries, or of any size when the quicksort of [sort.Slice] orders
    as its insertion sort does) it returns one more, whether or not the
    destination was registered already; after a removal that returns true,
    one less; after a removal that returns false, the same. *)
Theorem ProviderCount_tracks (R : Runtime) (s : State) :
  ProviderCount s = (Returns (Z.of_nat (length (providers s))), s) /\
  (forall provider s1,
     (length (providers s) < maxInsertion)%nat
     \/ sorts_consistently (pdqsort_func R) ->
     AddProvider R provider s = (Returns tt, s1) ->
     ProviderCount s1 = (Returns (Z.of_nat (length (providers s)) + 1), s1)) /\
  (forall name ok s1,
     RemoveProvider name s = (Returns ok, s1) ->
     ProviderCount s1
     = (Returns (if ok then Z.of_nat (length (providers s)) - 1
                 else Z.of_nat (length (providers s))), s1)).
Proof.
  split; [reflexivity|]. split.
  - intros provider s1 Hsort Hadd.
    destruct (AddProvider_step R provider s Hsort) as (s1' & Hadd' & Hperm & _).
    rewrite Hadd in Hadd'. injection Hadd' as <-.
    unfold ProviderCount, bind, get, ret. rewrite Hperm, length_app.
    cbn [length]. do 2 f_equal. lia.
  - intros name ok s1 Hrem.
    destruct (RemoveProvider_cases name s)
      as [[Hrun _]|(before & a & after & Hl & _ & _ & Hrun)];
      rewrite Hrun in Hrem; injection Hrem as <- <-.
    + reflexivity.
    + unfold ProviderCount, bind, get, ret. cbn [providers].
      rewrite Hl, !length_app. cbn [length]. do 2 f_equal. lia.
Qed.

Lemma ProviderCount_tracks_witness :
  exists s1,
    AddProvider R200 1%nat (mkState (twins ProviderGroq) [1%nat] 0 0) = (Returns tt, s1) /\
    ProviderCount (mkState (twins ProviderGroq) [1%nat] 0 0)
    = (Returns 1, mkState (twins ProviderGroq) [1%nat] 0 0) /\
    ProviderCount s1 = (Returns 2, s1).
Proof.
  destruct (ProviderCount_tracks R200 (mkState (twins ProviderGroq) [1%nat] 0 0))
    as (Hcount & Hadd & _).
  eexists. split; [reflexivity|]. split; [exact Hcount|].
  apply (Hadd 1%nat); [left; unfold maxInsertion; cbn; lia|reflexivity].
Defined.

(** ** Selection and health *)

Lemma CanUseProvider_window_only (R : Runtime) (provider : loc) (s s' : State) ok :
  CanUseProvider R provider s = (Returns ok, s') ->
  providers s' = providers s /\ calls s' = calls s /\
  clock s' = S (clock s) /\
  forall a, window_erased (heap s' a) = window_erased (heap s a).
Proof.
  rewrite CanUseProvider_eq. cbv zeta.
  destruct (Minute <=? _); intros [= <- <-]; cbn [providers calls clock heap];
    repeat split.
  intros a. destruct (decide (provider = a)) as [->|Hne].
  - rewrite fn_lookup_insert. reflexivity.
  - rewrite fn_lookup_insert_ne; done.
Qed.

Lemma SelectProvider_scan_window_only (R : Runtime) (l : list loc) :
  forall s found s',
    SelectProvider_scan R l s = (Returns found, s') ->
    providers s' = providers s /\ calls s' = calls s /\
    (forall a, window_erased (heap s' a) = window_erased (heap s a)) /\
    (forall a, found = Some a -> a ∈ l).
Proof.
  induction l as [|x l IH]; intros s found s'; cbn [SelectProvider_scan].
  - intros [= <- <-]. repeat split. discriminate.
  - destruct (CanUseProvider_returns R x s) as (ok & s1 & Hcheck).
    unfold bind at 1. rewrite Hcheck.
    apply CanUseProvider_window_only in Hcheck as (Hp & Hc & _ & Hw).
    destruct ok.
    + intros [= <- <-]. repeat split; try assumption.
      intros a [= <-]. left.
    + intros Hrun. apply IH in Hrun as (Hp' & Hc' & Hw' & Hin).
      repeat split; [congruence|congruence| |].
      * intros a. rewrite Hw'. apply Hw.
      * intros a Ha. right. apply Hin, Ha.
Qed.

Lemma SelectProvider_leastRecent_in (h : loc -> Provider) (rest : list loc) :
  forall first, SelectProvider_leastRecent h first rest ∈ first :: rest.
Proof.
  induction rest as [|x rest IH]; intros first; cbn [SelectProvider_leastRecent].
  - left.
  - specialize (IH (if Time_Before (LastUsed (h x)) (LastUsed (h first))
                    then x else first)).
    apply elem_of_cons in IH as [->|IH].
    + destruct (Time_Before _ _); [right; left|left].
    + right. right. exact IH.
Qed.

(** What [SelectProvider] returns and what it leaves. *)
Lemma SelectProvider_facts (R : Runtime) (s : State) :
  exists r s',
    SelectProvider R s = (Returns r, s') /\
    providers s' = providers s /\ calls s' = calls s /\
    (forall a, window_erased (heap s' a) = window_erased (heap s a)) /\
    match r with
    | inl provider => provider ∈ providers s
    | inr e => providers s = [] /\ e = fmt_Errorf "no providers available"
    end.
Proof.
  destruct (SelectProvider_scan_spec R (providers s) s) as (found & s' & Hrun & _).
  destruct (SelectProvider_scan_window_only R _ _ _ _ Hrun) as (Hp & Hc & Hw & Hin).
  unfold SelectProvider. unfold bind at 1, get at 1. unfold bind at 1.
  rewrite Hrun. destruct found as [provider|].
  - exists (inl provider), s'. split; [reflexivity|].
    repeat split; try assumption. apply Hin. reflexivity.
  - unfold bind, get. rewrite Hp.
    destruct (providers s) as [|first rest] eqn:Hl.
    + eexists (inr _), s'. split; [reflexivity|].
      repeat split; assumption || reflexivity.
    + eexists (inl _), s'. split; [reflexivity|].
      repeat split; try assumption. apply SelectProvider_leastRecent_in.
Qed.

(** X5.  [SelectProvider] returns its error exactly when the registry is
    empty; otherwise it returns an entry of the registry.  It sends nothing
    and leaves the registry and every provider as they were, but for the
    rate-limit windows it may have reopened. *)
Theorem SelectProvider_returns_an_entry (R : Runtime) (s : State) :
  exists r s',
    SelectProvider R s = (Returns r, s') /\
    (providers s = [] <-> exists e, r = inr e) /\
    (forall provider, r = inl provider -> provider ∈ providers s) /\
    providers s' = providers s /\ calls s' = calls s /\
    forall a, window_erased (heap s' a) = window_erased (heap s a).
Proof.
  destruct (SelectProvider_facts R s) as (r & s' & Hrun & Hp & Hc & Hw & Hr).
  exists r, s'. split; [exact Hrun|]. split; [|split; [|done]].
  - destruct r as [provider|e].
    + split; [|intros [e [=]]]. intros Hempty. rewrite Hempty in Hr. inversion Hr.
    + destruct Hr as [Hempty _]. split; [eauto|done].
  - intros provider ->. exact Hr.
Qed.

(** X6.  [IsHealthy] answers true exactly when the registry is not empty,
    whatever the rate limiters say; it sends nothing and changes nothing but
    rate-limit windows. *)
Theorem IsHealthy_iff_registered (R : Runtime) (s : State) :
  exists ok s',
    IsHealthy R s = (Returns ok, s') /\
    (ok = true <-> providers s <> []) /\
    providers s' = providers s /\ calls s' = calls s /\
    forall a, window_erased (heap s' a) = window_erased (heap s a).
Proof.
  destruct (SelectProvider_scan_spec R (providers s) s) as (found & s' & Hrun & _).
  destruct (SelectProvider_scan_window_only R _ _ _ _ Hrun) as (Hp & Hc & Hw & Hin).
  unfold IsHealthy. unfold bind at 1, get at 1. unfold bind at 1. rewrite Hrun.
  destruct found as [provider|].
  - exists true, s'. split; [reflexivity|]. split; [|done].
    split; [|done]. intros _ Hempty.
    specialize (Hin provider eq_refl). rewrite Hempty in Hin. inversion Hin.
  - unfold bind, get, ret. rewrite Hp.
    eexists _, s'. split; [reflexivity|]. split; [|done].
    destruct (providers s); cbn; split; try done.
Qed.

Lemma SelectProvider_scan_denied (R : Runtime) (s s1 : State) (before : list loc) :
  scan_denied R s before s1 ->
  forall l, SelectProvider_scan R (before ++ l) s = SelectProvider_scan R l s1.
Proof.
  induction 1 as [s|s provider before s1 s2 Hcheck _ IH]; intros l; [reflexivity|].
  cbn [app SelectProvider_scan]. unfold bind at 1. rewrite Hcheck. apply IH.
Qed.

Lemma SelectProvider_leastRecent_split (h : loc -> Provider) (rest : list loc) :
  forall seen_before cur seen_after,
    (forall b, b ∈ seen_before -> LastUsed (h cur) < LastUsed (h b)) ->
    (forall b, b ∈ seen_after -> LastUsed (h cur) <= LastUsed (h b)) ->
    exists before after,
      seen_before ++ cur :: seen_after ++ rest
      = before ++ SelectProvider_leastRecent h cur rest :: after /\
      (forall b, b ∈ before ->
         LastUsed (h (SelectProvider_leastRecent h cur rest)) < LastUsed (h b)) /\
      (forall b, b ∈ after ->
         LastUsed (h (SelectProvider_leastRecent h cur rest)) <= LastUsed (h b)).
Proof.
  induction rest as [|x rest IH]; intros seen_before cur seen_after Hb Ha;
    cbn [SelectProvider_leastRecent].
  - exists seen_before, seen_after. rewrite app_nil_r. done.
  - unfold Time_Before.
    destruct (Z.ltb_spec (LastUsed (h x)) (LastUsed (h cur))) as [Hlt|Hge].
    + destruct (IH (seen_before ++ cur :: seen_after) x []) as (before & after & Hl & H1 & H2).
      * intros b [Hin|Hin]%elem_of_app.
        -- specialize (Hb b Hin). lia.
        -- apply elem_of_cons in Hin as [->|Hin]; [lia|].
           specialize (Ha b Hin). lia.
      * intros b Hin. inversion Hin.
      * exists before, after. split; [|done].
        rewrite <- Hl. cbn [app]. rewrite <- !app_assoc. reflexivity.
    + destruct (IH seen_before cur (seen_after ++ [x])) as (before & after & Hl & H1 & H2).
      * exact Hb.
      * intros b [Hin|Hin]%elem_of_app; [apply Ha, Hin|].
        apply list_elem_of_singleton in Hin as ->. lia.
      * exists before, after. split; [|done].
        rewrite <- Hl, <- !app_assoc. reflexivity.
Qed.

(** X7.  When every rate-limit check refuses, [SelectProvider] falls back on
    the first, in registry order, of the entries whose last use is the
    earliest: every entry before it was used strictly later, no entry after
    it was used earlier. *)
Theorem SelectProvider_fallback_first_coldest (R : Runtime) (s s' : State) :
  providers s <> [] ->
  scan_denied R s (providers s) s' ->
  exists chosen before after,
    SelectProvider R s = (Returns (inl chosen), s') /\
    providers s = before ++ chosen :: after /\
    (forall b, b ∈ before -> LastUsed (heap s chosen) < LastUsed (heap s b)) /\
    (forall b, b ∈ after -> LastUsed (heap s chosen) <= LastUsed (heap s b)).
Proof.
  intros Hne Hden.
  destruct (scan_denied_frame _ _ _ _ Hden) as (Hp & _ & Hu).
  pose proof (SelectProvider_scan_denied R s s' (providers s) Hden []) as Hscan.
  rewrite app_nil_r in Hscan. cbn [SelectProvider_scan] in Hscan.
  unfold SelectProvider. unfold bind at 1, get at 1. unfold bind at 1.
  rewrite Hscan. unfold ret at 1. unfold bind, get. rewrite Hp.
  destruct (providers s) as [|first rest]; [done|].
  destruct (SelectProvider_leastRecent_split (heap s') rest [] first [])
    as (before & after & Hl & H1 & H2).
  { intros b Hin. inversion Hin. }
  { intros b Hin. inversion Hin. }
  eexists _, before, after. split; [reflexivity|]. cbn [app] in Hl.
  split; [exact Hl|]. split.
  - intros b Hin. rewrite <- !Hu. apply H1, Hin.
  - intros b Hin. rewrite <- !Hu. apply H2, Hin.
Qed.

Lemma SelectProvider_fallback_first_coldest_witness :
  exists s', SelectProvider R200 cold_pool = (Returns (inl 2%nat), s').
Proof.
  destruct (SelectProvider_fallback_first_coldest R200 cold_pool
              (mkState (heap cold_pool) (providers cold_pool) 3 0))
    as (chosen & before & after & Hrun & _).
  - discriminate.
  - repeat (econstructor; [reflexivity|]). constructor.
  - assert (Hfst : fst (SelectProvider R200 cold_pool) = Returns (inl chosen))
      by (rewrite Hrun; reflexivity).
    vm_compute in Hfst. injection Hfst as <-. eexists. exact Hrun.
Defined.

(** X8.  In a registry that stands in priority order, a destination that
    the scan reaches after refusals only, and whose own check permits, is
    the one [SelectProvider] returns, and no entry behind it has a strictly
    better priority. *)
Theorem SelectProvider_prefers_priority (R : Runtime) (s s1 s' : State)
    (before after : list loc) (provider : loc) :
  StronglySorted (may_precede (heap s)) (providers s) ->
  providers s = before ++ provider :: after ->
  scan_denied R s before s1 ->
  CanUseProvider R provider s1 = (Returns true, s') ->
  SelectProvider R s = (Returns (inl provider), s') /\
  forall b, b ∈ after -> Priority (heap s provider) <= Priority (heap s b).
Proof.
  intros Hs Hl Hden Hok. split.
  - unfold SelectProvider. unfold bind at 1, get at 1. unfold bind at 1.
    rewrite Hl, (SelectProvider_scan_denied R s s1 before Hden).
    cbn [SelectProvider_scan]. unfold bind at 1. rewrite Hok. reflexivity.
  - intros b Hb. rewrite Hl in Hs.
    apply StronglySorted_app in Hs as (_ & _ & Hs).
    apply StronglySorted_cons in Hs as [Hall _].
    rewrite Forall_forall in Hall. destruct (Hall b Hb) as [Hlt|[Heq _]]; lia.
Qed.

Lemma SelectProvider_prefers_priority_witness :
  exists s', SelectProvider R200 three_providers = (Returns (inl 1%nat), s').
Proof.
  eexists.
  apply (SelectProvider_prefers_priority R200 three_providers three_providers _
           [] [2%nat; 3%nat] 1%nat).
  - repeat constructor; left; cbn; lia.
  - reflexivity.
  - constructor.
  - reflexivity.
Defined.

(** ** Statistics and the quota *)

(** X9.  One call of [UpdateProviderStats] on a provider whose error count
    lies between zero and its total count, the total being short of the
    largest [int]: the total grows by one, the error count by one exactly
    when the call reports a failure, the error count still lies between zero
    and the total, the last-used time is the clock's reading, and neither
    the start of the window, nor the configuration, nor any other provider
    changes. *)
Theorem UpdateProviderStats_counters (R : Runtime) (provider : loc) (success : bool)
    (s : State) :
  0 <= Errors (heap s provider) <= TotalRequests (heap s provider) ->
  TotalRequests (heap s provider) < 2 ^ 63 - 1 ->
  exists s',
    UpdateProviderStats R provider success s = (Returns tt, s') /\
    TotalRequests (heap s' provider) = TotalRequests (heap s provider) + 1 /\
    Errors (heap s' provider)
    = (if success then Errors (heap s provider) else Errors (heap s provider) + 1) /\
    0 <= Errors (heap s' provider) <= TotalRequests (heap s' provider) /\
    LastUsed (heap s' provider) = wall R (clock s) /\
    LastReset (heap s' provider) = LastReset (heap s provider) /\
    config_of (heap s' provider) = config_of (heap s provider) /\
    (forall other, other <> provider -> heap s' other = heap s other) /\
    providers s' = providers s /\ calls s' = calls s.
Proof.
  intros Herr Htot. rewrite UpdateProviderStats_eq. eexists. split; [reflexivity|].
  cbn [heap providers calls]. rewrite fn_lookup_insert.
  cbn [recorded set_usage TotalRequests Errors LastUsed LastReset].
  rewrite (int_incr_in_range (TotalRequests _)) by lia.
  assert (Herrs : (if success then Errors (heap s provider)
                   else int_incr (Errors (heap s provider)))
                  = (if success then Errors (heap s provider)
                     else Errors (heap s provider) + 1)).
  { destruct success; [reflexivity|]. apply int_incr_in_range. lia. }
  rewrite Herrs.
  split; [reflexivity|]. split; [reflexivity|].
  split; [destruct success; lia|]. split; [reflexivity|]. split; [reflexivity|].
  split; [reflexivity|]. split; [|done].
  intros other Hne. apply fn_lookup_insert_ne. congruence.
Qed.

Lemma UpdateProviderStats_counters_witness :
  exists s',
    UpdateProviderStats R500 1%nat false three_providers = (Returns tt, s') /\
    TotalRequests (heap s' 1%nat) = 1 /\ Errors (heap s' 1%nat) = 1.
Proof.
  destruct (UpdateProviderStats_counters R500 1%nat false three_providers)
    as (s' & Hrun & Htot & Herr & _).
  - cbn. lia.
  - cbn. lia.
  - exists s'. split; [exact Hrun|]. split; [rewrite Htot|rewrite Herr]; reflexivity.
Defined.

Lemma UpdateProviderStats_each_spec (R : Runtime) (provider : loc)
    (outcomes : list bool) :
  forall s,
    0 <= RequestCount (heap s provider) ->
    RequestCount (heap s provider) + Z.of_nat (length outcomes) < 2 ^ 63 ->
    exists s1,
      UpdateProviderStats_each R provider outcomes s = (Returns tt, s1) /\
      RequestCount (heap s1 provider)
      = RequestCount (heap s provider) + Z.of_nat (length outcomes) /\
      LastReset (heap s1 provider) = LastReset (heap s provider) /\
      RequestsPerMinute (heap s1 provider) = RequestsPerMinute (heap s provider) /\
      clock s1 = (clock s + length outcomes)%nat.
Proof.
  induction outcomes as [|success outcomes IH]; intros s Hk Hn.
  - exists s. cbn [length]. rewrite Z.add_0_r, Nat.add_0_r. done.
  - cbn [length] in Hn. cbn [UpdateProviderStats_each]. unfold bind at 1.
    rewrite UpdateProviderStats_eq.
    set (s' := mkState _ _ _ _).
    assert (Hcount : RequestCount (heap s' provider) = RequestCount (heap s provider) + 1).
    { subst s'. cbn [heap]. rewrite fn_lookup_insert. cbn [recorded set_usage RequestCount].
      apply int_incr_in_range. lia. }
    assert (Hsame : LastReset (heap s' provider) = LastReset (heap s provider) /\
                    RequestsPerMinute (heap s' provider)
                    = RequestsPerMinute (heap s provider)).
    { subst s'. cbn [heap]. rewrite fn_lookup_insert. done. }
    destruct (IH s') as (s1 & Hrun & Hc & Hr & Hq & Hclock); [lia|lia|].
    exists s1. split; [exact Hrun|]. destruct Hsame as [Hr' Hq'].
    split; [rewrite Hc, Hcount; cbn [length]; lia|].
    split; [congruence|]. split; [congruence|].
    rewrite Hclock. subst s'. cbn [clock length]. lia.
Qed.

(** X10.  The quota within a window.  After [n] recorded requests on a
    provider whose window count was [k], with no wrap-around, the count is
    [k + n]; and a rate-limit check made then, less than a minute after the
    start of the window, permits exactly when [k + n] is below the quota: a
    window opened at count zero takes as many requests as the quota says and
    refuses the next. *)
Theorem quota_within_window (R : Runtime) (provider : loc) (outcomes : list bool)
    (s : State) :
  0 <= RequestCount (heap s provider) ->
  RequestCount (heap s provider) + Z.of_nat (length outcomes) < 2 ^ 63 ->
  exists s1,
    UpdateProviderStats_each R provider outcomes s = (Returns tt, s1) /\
    RequestCount (heap s1 provider)
    = RequestCount (heap s provider) + Z.of_nat (length outcomes) /\
    (wall R (clock s1) - LastReset (heap s provider) < Minute ->
     CanUseProvider R provider s1
     = (Returns (RequestCount (heap s provider) + Z.of_nat (length outcomes)
                 <? RequestsPerMinute (heap s provider)),
        mkState (heap s1) (providers s1) (S (clock s1)) (calls s1))).
Proof.
  intros Hk Hn.
  destruct (UpdateProviderStats_each_spec R provider outcomes s Hk Hn)
    as (s1 & Hrun & Hc & Hr & Hq & _).
  exists s1. split; [exact Hrun|]. split; [exact Hc|].
  intros Hwin. rewrite CanUseProvider_eq. cbv zeta. rewrite Hr.
  replace (Minute <=? _) with false by (symmetry; apply Z.leb_gt; exact Hwin).
  rewrite Hc, Hq. reflexivity.
Qed.

Lemma quota_within_window_witness :
  exists s1 s2 s3 s4,
    UpdateProviderStats_each R500 1%nat [true; false; true; true] three_providers
    = (Returns tt, s1) /\
    CanUseProvider R500 1%nat s1 = (Returns true, s2) /\
    UpdateProviderStats_each R500 1%nat [true; false; true; true; true] three_providers
    = (Returns tt, s3) /\
    CanUseProvider R500 1%nat s3 = (Returns false, s4).
Proof.
  destruct (quota_within_window R500 1%nat [true; false; true; true] three_providers)
    as (s1 & Hrun1 & _ & Hcheck1); [cbn; lia|cbn; lia|].
  destruct (quota_within_window R500 1%nat [true; false; true; true; true]
              three_providers)
    as (s3 & Hrun3 & _ & Hcheck3); [cbn; lia|cbn; lia|].
  assert (Hc1 : clock s1 = 4%nat).
  { assert (H : snd (UpdateProviderStats_each R500 1%nat [true; false; true; true]
                       three_providers) = s1) by (rewrite Hrun1; reflexivity).
    rewrite <- H. reflexivity. }
  assert (Hc3 : clock s3 = 5%nat).
  { assert (H : snd (UpdateProviderStats_each R500 1%nat
                       [true; false; true; true; true] three_providers) = s3)
      by (rewrite Hrun3; reflexivity).
    rewrite <- H. reflexivity. }
  exists s1. eexists. exists s3. eexists.
  split; [exact Hrun1|]. split.
  - apply Hcheck1. rewrite Hc1. vm_compute. reflexivity.
  - split; [exact Hrun3|]. apply Hcheck3. rewrite Hc3. vm_compute. reflexivity.
Defined.

(** ** What a dispatch leaves and returns *)

Lemma ConvertToProviderFormat_loop_state (msgs : list ChatMessage) :
  forall systemMsg messages s,
    snd (ConvertToProviderFormat_loop msgs systemMsg messages s) = s.
Proof.
  induction msgs as [|m msgs IH]; intros systemMsg messages s;
    cbn [ConvertToProviderFormat_loop]; [reflexivity|].
  destruct (String.eqb (Role m) "system"); unfold bind at 1;
    destruct (MsgContent m); cbn [assert_string]; unfold ret, panic;
    cbv beta iota; try apply IH; reflexivity.
Qed.

Lemma ConvertToProviderFormat_state (R : Runtime) (provider : loc)
    (req : ChatRequest) (s : State) :
  snd (ConvertToProviderFormat R provider req s) = s.
Proof.
  unfold ConvertToProviderFormat. unfold bind at 1, load at 1. cbv beta iota.
  destruct (_ || _); [reflexivity|].
  destruct (String.eqb _ ProviderAnthropic); [|reflexivity].
  unfold bind.
  pose proof (ConvertToProviderFormat_loop_state (Messages req) "" [] s) as Hloop.
  destruct (ConvertToProviderFormat_loop (Messages req) "" [] s) as [[sm|msg] s1];
    cbn [snd] in Hloop; subst s1; reflexivity.
Qed.

Lemma ParseProviderResponse_names (R : Runtime) (provider : loc)
    (body : list Byte.byte) (s s' : State) (resp : ChatResponse) :
  ParseProviderResponse R provider body s = (Returns (inl resp), s') ->
  RespProvider resp = Name (heap s provider).
Proof.
  unfold ParseProviderResponse. unfold bind at 1, load at 1. cbv beta iota.
  destruct (_ || _).
  - destruct (json_Unmarshal_openai R body) as [o|]; [|intros [=]].
    destruct (Choices o); intros [= <- _]; reflexivity.
  - destruct (String.eqb _ ProviderAnthropic); [|intros [=]].
    destruct (json_Unmarshal_anthropic R body) as [o|]; [|intros [=]].
    destruct (aContent o); intros [= <- _]; reflexivity.
Qed.

Lemma window_erased_config (p q : Provider) :
  window_erased p = window_erased q -> config_of p = config_of q.
Proof.
  intros H. change (set_usage (window_erased p) 0 0 0 0 = set_usage (window_erased q) 0 0 0 0).
  rewrite H. reflexivity.
Qed.

Lemma attempted_config (R : Runtime) (s1 : State) (provider : loc) (success : bool) :
  forall a, config_of (heap (attempted R s1 provider success) a) = config_of (heap s1 a).
Proof.
  intros a. cbn [attempted heap]. destruct (decide (provider = a)) as [->|Hne].
  - rewrite fn_lookup_insert. reflexivity.
  - rewrite fn_lookup_insert_ne; done.
Qed.

(** One pass of the loop of [Chat]. *)
Lemma Chat_body_facts (R : Runtime) (req : ChatRequest) (s : State) :
  forall o s',
    Chat_body R req s = (o, s') ->
    providers s' = providers s /\
    (forall a, config_of (heap s' a) = config_of (heap s a)) /\
    (calls s <= calls s' <= S (calls s))%nat /\
    match o with
    | Returns (Return (inl resp)) =>
        exists a, a ∈ providers s /\ RespProvider resp = Name (heap s a) /\
                  calls s' = S (calls s)
    | Returns (Return (inr e)) => providers s = []
    | _ => True
    end.
Proof.
  intros o s'.
  destruct (SelectProvider_facts R s) as (r & s1 & Hsel & Hp & Hc & Hw & Hr).
  assert (Hcfg : forall a, config_of (heap s1 a) = config_of (heap s a))
    by (intros a; apply window_erased_config, Hw).
  unfold Chat_body. unfold bind at 1. rewrite Hsel.
  destruct r as [provider|e].
  2:{ intros [= <- <-]. destruct Hr as [Hempty _]. repeat split; try done; lia. }
  unfold bind at 1.
  pose proof (ConvertToProviderFormat_state R provider req s1) as Hconv.
  destruct (ConvertToProviderFormat R provider req s1) as [[conv|msg] s1'];
    cbn [snd] in Hconv; subst s1'.
  2:{ intros [= <- <-]. repeat split; try done; lia. }
  destruct conv as [reqBody|err].
  2:{ intros [= <- <-]. repeat split; try done; lia. }
  unfold bind at 1, load at 1. cbv beta iota.
  destruct (http_NewRequestWithContext R _ _ _) as [httpReq|err] eqn:Hnew.
  2:{ intros [= <- <-]. repeat split; try done; lia. }
  unfold bind at 1, Do at 1. cbv beta iota.
  set (s2 := mkState (heap s1) (providers s1) (clock s1) (S (calls s1))).
  assert (Hdone : forall success,
    providers (attempted R s1 provider success) = providers s /\
    (forall a, config_of (heap (attempted R s1 provider success) a)
               = config_of (heap s a)) /\
    (calls s <= calls (attempted R s1 provider success) <= S (calls s))%nat /\
    calls (attempted R s1 provider success) = S (calls s)).
  { intros success. cbn [attempted providers calls]. repeat split; try lia; try done.
    intros a. rewrite <- Hcfg. apply attempted_config. }
  assert (Hfail : forall err,
    (Returns (Continue err), attempted R s1 provider false) = (o, s') ->
    providers s' = providers s /\
    (forall a, config_of (heap s' a) = config_of (heap s a)) /\
    (calls s <= calls s' <= S (calls s))%nat /\
    match o with
    | Returns (Return (inl resp)) =>
        exists a, a ∈ providers s /\ RespProvider resp = Name (heap s a) /\
                  calls s' = S (calls s)
    | Returns (Return (inr e)) => providers s = []
    | _ => True
    end).
  { intros err [= <- <-]. destruct (Hdone false) as (H1 & H2 & H3 & _). done. }
  destruct (client_Do R (calls s1) _) as [resp|err]; [|apply Hfail].
  destruct (Body resp) as [body|err]; [|apply Hfail].
  destruct (StatusCode resp =? StatusOK); cbn [negb]; [|apply Hfail].
  destruct (ParseProviderResponse_returns R provider body s2) as [parsed Hparse].
  unfold bind at 1. rewrite Hparse.
  destruct parsed as [chatResp|err]; [|apply Hfail].
  intros [= <- <-]. destruct (Hdone true) as (H1 & H2 & H3 & H4).
  split; [exact H1|]. split; [exact H2|]. split; [exact H3|].
  exists provider. split; [exact Hr|]. split; [|exact H4].
  rewrite (ParseProviderResponse_names _ _ _ _ _ _ Hparse).
  subst s2. cbn [heap]. apply (f_equal Name (Hcfg provider)).
Qed.

(** The loop of [Chat]. *)
Lemma Chat_loop_facts (R : Runtime) (req : ChatRequest) (n : nat) :
  forall s lastErr o s',
    Chat_loop R req n lastErr s = (o, s') ->
    providers s' = providers s /\
    (forall a, config_of (heap s' a) = config_of (heap s a)) /\
    (calls s <= calls s' <= calls s + n)%nat /\
    match o with
    | Returns (inl resp) =>
        exists a, a ∈ providers s /\ RespProvider resp = Name (heap s a) /\
                  (calls s < calls s')%nat
    | Returns (inr e) =>
        match n with
        | O => e = all_failed lastErr
        | S _ => providers s = [] \/ exists err, e = all_failed (Some err)
        end
    | Panics _ => True
    end.
Proof.
  induction n as [|n IH]; intros s lastErr o s'; cbn [Chat_loop].
  - intros [= <- <-]. repeat split; try done; lia.
  - unfold bind at 1.
    destruct (Chat_body R req s) as [ob s1] eqn:Hbody.
    apply Chat_body_facts in Hbody as (Hp & Hcfg & Hcalls & Hob).
    destruct ob as [[r|err]|msg].
    + intros [= <- <-]. split; [exact Hp|]. split; [exact Hcfg|]. split; [lia|].
      destruct r as [resp|e].
      * destruct Hob as (a & Ha & Hname & Hc). exists a. repeat split; try done. lia.
      * left. exact Hob.
    + intros Hrest. apply IH in Hrest as (Hp' & Hcfg' & Hcalls' & Ho).
      split; [congruence|]. split; [intros a; rewrite Hcfg'; apply Hcfg|].
      split; [lia|]. destruct o as [[resp|e]|msg]; [| |exact I].
      * destruct Ho as (a & Ha & Hname & Hc). exists a.
        split; [rewrite <- Hp; exact Ha|]. split; [|lia].
        rewrite Hname. apply (f_equal Name (Hcfg a)).
      * destruct n.
        -- right. eauto.
        -- destruct Ho as [Hempty|Hlast]; [left; congruence|right; exact Hlast].
    + intros [= <- <-]. repeat split; try done; lia.
Qed.

Lemma Chat_facts (R : Runtime) (req : ChatRequest) (s : State) :
  forall o s',
    Chat R req s = (o, s') ->
    providers s' = providers s /\
    (forall a, config_of (heap s' a) = config_of (heap s a)) /\
    (calls s <= calls s' <= calls s + length (providers s))%nat /\
    match o with
    | Returns (inl resp) =>
        exists a, a ∈ providers s /\ RespProvider resp = Name (heap s a) /\
                  (calls s < calls s')%nat
    | Returns (inr e) =>
        exists last, e = all_failed last /\ (last = None <-> providers s = [])
    | Panics _ => True
    end.
Proof.
  intros o s'. unfold Chat. unfold bind at 1, get at 1. intros Hloop.
  apply Chat_loop_facts in Hloop as (Hp & Hcfg & Hcalls & Ho).
  split; [exact Hp|]. split; [exact Hcfg|]. split; [exact Hcalls|].
  destruct o as [[resp|e]|msg]; [exact Ho| |exact I].
  destruct (providers s) as [|x l] eqn:Hl; cbn [length] in Ho.
  - exists None. done.
  - destruct Ho as [[=]|[err ->]]. exists (Some err). done.
Qed.

(** X11.  A dispatch makes at most as many network calls as the registry
    had entries when it began, however it ends. *)
Theorem Chat_calls_bounded (R : Runtime) (req : ChatRequest) (s : State) :
  (calls s <= calls (snd (Chat R req s)) <= calls s + length (providers s))%nat.
Proof.
  destruct (Chat R req s) as [o s'] eqn:Hrun.
  apply Chat_facts in Hrun as (_ & _ & Hcalls & _). exact Hcalls.
Qed.

(** X12.  However a dispatch ends, the registry holds the same entries in
    the same order, and no provider's configuration (name, type, key, URL,
    model, priority, quota) has changed: only runtime counters and times
    move. *)
Theorem Chat_keeps_configuration (R : Runtime) (req : ChatRequest) (s : State) :
  providers (snd (Chat R req s)) = providers s /\
  forall a,
    Name (heap (snd (Chat R req s)) a) = Name (heap s a) /\
    Type_ (heap (snd (Chat R req s)) a) = Type_ (heap s a) /\
    APIKey (heap (snd (Chat R req s)) a) = APIKey (heap s a) /\
    BaseURL (heap (snd (Chat R req s)) a) = BaseURL (heap s a) /\
    Model (heap (snd (Chat R req s)) a) = Model (heap s a) /\
    Priority (heap (snd (Chat R req s)) a) = Priority (heap s a) /\
    RequestsPerMinute (heap (snd (Chat R req s)) a) = RequestsPerMinute (heap s a).
Proof.
  destruct (Chat R req s) as [o s'] eqn:Hrun. cbn [snd].
  apply Chat_facts in Hrun as (Hp & Hcfg & _). split; [exact Hp|].
  intros a. specialize (Hcfg a).
  repeat split;
    [apply (f_equal Name Hcfg)|apply (f_equal Type_ Hcfg)|apply (f_equal APIKey Hcfg)
    |apply (f_equal BaseURL Hcfg)|apply (f_equal Model Hcfg)
    |apply (f_equal Priority Hcfg)|apply (f_equal RequestsPerMinute Hcfg)].
Qed.

(** X13.  A pass of the loop of [Chat] hands an error to the caller at
    once only when it finds the registry empty, and the error is then the
    selector's.  In a dispatch during which nothing else changes the
    registry no pass does: every error [Chat] returns is then the exhaustion
    error, which quotes no last error exactly when the registry was empty at
    the start. *)
Theorem Chat_error_is_exhaustion (R : Runtime) (req : ChatRequest) :
  (forall s e s',
     Chat_body R req s = (Returns (Return (inr e)), s') ->
     providers s = [] /\ e = fmt_Errorf "no providers available") /\
  (forall s e s',
     Chat R req s = (Returns (inr e), s') ->
     exists last,
       e = fmt_Errorf ("all providers failed, last error: " +:+ fmt_v last) /\
       (last = None <-> providers s = []) /\
       e <> fmt_Errorf "no providers available").
Proof.
  split.
  - intros s e s' Hbody.
    pose proof (Chat_body_facts R req s _ _ Hbody) as (_ & _ & _ & Hempty).
    split; [exact Hempty|].
    assert (Hsel : SelectProvider R s
                   = (Returns (inr (fmt_Errorf "no providers available")), s)).
    { unfold SelectProvider. unfold bind, get. rewrite Hempty. cbn.
      rewrite Hempty. reflexivity. }
    unfold Chat_body in Hbody. unfold bind at 1 in Hbody. rewrite Hsel in Hbody.
    injection Hbody as <- _. reflexivity.
  - intros s e s' Hrun.
    apply Chat_facts in Hrun as (_ & _ & _ & (last & -> & Hlast)).
    exists last. split; [reflexivity|]. split; [exact Hlast|].
    unfold all_failed. intros [=].
Qed.

Lemma Chat_error_is_exhaustion_witness :
  (exists s',
     Chat_body R500 (request [user_msg "hi"]) (empty_pool (fun _ => gpt))
     = (Returns (Return (inr (fmt_Errorf "no providers available"))), s')) /\
  (exists last s',
     Chat R500 (request [user_msg "hi"]) three_providers
     = (Returns (inr (fmt_Errorf ("all providers failed, last error: " +:+ fmt_v last))),
        s') /\
     last <> None).
Proof.
  destruct (Chat_error_is_exhaustion R500 (request [user_msg "hi"])) as [Hpass Hall].
  split.
  - destruct (Chat_body R500 (request [user_msg "hi"]) (empty_pool (fun _ => gpt)))
      as [o s'] eqn:Hrun.
    assert (Ho : exists e, o = Returns (Return (inr e))).
    { assert (H : fst (Chat_body R500 (request [user_msg "hi"])
                         (empty_pool (fun _ => gpt))) = o)
        by (rewrite Hrun; reflexivity).
      vm_compute in H. subst o. eauto. }
    destruct Ho as [e ->].
    destruct (Hpass _ _ _ Hrun) as [_ ->]. exists s'. reflexivity.
  - destruct (Chat R500 (request [user_msg "hi"]) three_providers) as [o s'] eqn:Hrun.
    assert (Ho : exists e, o = Returns (inr e)).
    { assert (H : fst (Chat R500 (request [user_msg "hi"]) three_providers) = o)
        by (rewrite Hrun; reflexivity).
      vm_compute in H. subst o. eauto. }
    destruct Ho as [e ->].
    destruct (Hall _ _ _ Hrun) as (last & -> & Hlast & _).
    exists last, s'. split; [reflexivity|].
    intros Hnone. apply Hlast in Hnone. discriminate.
Defined.

(** X14.  A response [Chat] returns names, as its provider, an entry of the
    registry, and at least one network call was made for it. *)
Theorem Chat_response_names_an_entry (R : Runtime) (req : ChatRequest) (s s' : State)
    (resp : ChatResponse) :
  Chat R req s = (Returns (inl resp), s') ->
  exists a,
    a ∈ providers s /\ RespProvider resp = Name (heap s a) /\
    (calls s < calls s')%nat.
Proof.
  intros Hrun. apply Chat_facts in Hrun as (_ & _ & _ & Hresp). exact Hresp.
Qed.

Lemma Chat_response_names_an_entry_witness :
  exists resp s',
    Chat R200 (request [user_msg "hi"]) (one_provider gpt) = (Returns (inl resp), s') /\
    RespProvider resp = "gpt".
Proof.
  destruct (Chat R200 (request [user_msg "hi"]) (one_provider gpt)) as [o s'] eqn:Hrun.
  assert (Ho : exists resp, o = Returns (inl resp)).
  { assert (H : fst (Chat R200 (request [user_msg "hi"]) (one_provider gpt)) = o)
      by (rewrite Hrun; reflexivity).
    vm_compute in H. subst o. eauto. }
  destruct Ho as [resp ->].
  destruct (Chat_response_names_an_entry R200 _ _ _ _ Hrun) as (a & Ha & Hname & _).
  exists resp, s'. split; [reflexivity|]. rewrite Hname. reflexivity.
Defined.

(** ** Edges of translation and parsing *)

(** X15.  The only errors [ParseProviderResponse] returns are the one of
    the decoder of the provider's family, as the decoder gave it, and the
    unsupported-protocol error for a provider of no family. *)
Theorem ParseProviderResponse_errors (R : Runtime) (provider : loc)
    (body : list Byte.byte) (s s' : State) (e : error) :
  ParseProviderResponse R provider body s = (Returns (inr e), s') ->
  (openai_family (Type_ (heap s provider)) = true /\
   json_Unmarshal_openai R body = inr e)
  \/ (Type_ (heap s provider) = ProviderAnthropic /\
      json_Unmarshal_anthropic R body = inr e)
  \/ (supported (Type_ (heap s provider)) = false /\
      e = fmt_Errorf ("unsupported provider type: " +:+ Type_ (heap s provider))).
Proof.
  unfold ParseProviderResponse, supported, openai_family.
  unfold bind at 1, load at 1. cbv beta iota.
  destruct (_ || _) eqn:Hfam.
  - destruct (json_Unmarshal_openai R body) as [o|err] eqn:Hdec.
    + destruct (Choices o); intros [=].
    + intros [= <- _]. left. done.
  - destruct (String.eqb_spec (Type_ (heap s provider)) ProviderAnthropic) as [Hty|Hty].
    + destruct (json_Unmarshal_anthropic R body) as [o|err] eqn:Hdec.
      * destruct (aContent o); intros [=].
      * intros [= <- _]. right. left. done.
    + intros [= <- _]. right. right. done.
Qed.

Lemma ParseProviderResponse_errors_witness :
  openai_family (Type_ mistral) = false /\
  ParseProviderResponse R200 1%nat [] (one_provider mistral)
  = (Returns (inr (fmt_Errorf "unsupported provider type: mistral")),
     one_provider mistral).
Proof.
  destruct (ParseProviderResponse_errors R200 1%nat [] (one_provider mistral)
              (one_provider mistral)
              (fmt_Errorf "unsupported provider type: mistral") eq_refl)
    as [[Hfam _]|[[Hty _]|[_ _]]].
  - discriminate Hfam.
  - discriminate Hty.
  - split; reflexivity.
Defined.

(** X16.  A body that decodes to a response with no choice (chat-completions
    family) or no content block (structured-turn family) is no error: the
    canonical response is returned with an empty content, the identifier,
    model and usage being those of the wire. *)
Theorem ParseProviderResponse_without_content (R : Runtime) (provider : loc)
    (body : list Byte.byte) (s : State) :
  (openai_family (Type_ (heap s provider)) = true ->
   forall id model usage,
     json_Unmarshal_openai R body = inl (mkOpenaiResp id model [] usage) ->
     ParseProviderResponse R provider body s
     = (Returns (inl (mkChatResponse id "" model usage (Name (heap s provider)))), s))
  /\
  (Type_ (heap s provider) = ProviderAnthropic ->
   forall id model input output,
     json_Unmarshal_anthropic R body = inl (mkAnthropicResp id model [] input output) ->
     ParseProviderResponse R provider body s
     = (Returns (inl (mkChatResponse id "" model
                        (mkUsage input output (int_add input output))
                        (Name (heap s provider)))), s)).
Proof.
  split.
  - intros Hty id model usage Hdec.
    rewrite (ParseProviderResponse_openai _ _ _ _ _ Hty Hdec). reflexivity.
  - intros Hty id model input output Hdec.
    rewrite (ParseProviderResponse_anthropic _ _ _ _ _ Hty Hdec). reflexivity.
Qed.

Lemma ParseProviderResponse_without_content_witness :
  ParseProviderResponse
    (mkRuntime (wall R200) (json_Marshal_fails R200)
       (fun _ => inl (mkOpenaiResp "id" "m" [] (mkUsage 1 2 3)))
       (json_Unmarshal_anthropic R200) (http_NewRequestWithContext R200)
       (client_Do R200) (pdqsort_func R200))
    1%nat [] (one_provider gpt)
  = (Returns (inl (mkChatResponse "id" "" "m" (mkUsage 1 2 3) "gpt")), one_provider gpt).
Proof.
  destruct (ParseProviderResponse_without_content
              (mkRuntime (wall R200) (json_Marshal_fails R200)
                 (fun _ => inl (mkOpenaiResp "id" "m" [] (mkUsage 1 2 3)))
                 (json_Unmarshal_anthropic R200) (http_NewRequestWithContext R200)
                 (client_Do R200) (pdqsort_func R200))
              1%nat [] (one_provider gpt)) as [Hopenai _].
  apply (Hopenai eq_refl "id" "m" (mkUsage 1 2 3) eq_refl).
Defined.

(** X17.  The model a request asks for never reaches the wire: whatever the
    provider's type, translation gives the same result for every value of
    the request's model field.  Outside the chat-completions family the
    stream flag is dropped the same way. *)
Theorem ConvertToProviderFormat_ignores_model (R : Runtime) (provider : loc)
    (req : ChatRequest) (s : State) :
  (forall model,
     ConvertToProviderFormat R provider
       (mkChatRequest (Messages req) model (Temperature req) (MaxTokens req) (Stream req)) s
     = ConvertToProviderFormat R provider req s) /\
  (openai_family (Type_ (heap s provider)) = false ->
   forall model stream,
     ConvertToProviderFormat R provider
       (mkChatRequest (Messages req) model (Temperature req) (MaxTokens req) stream) s
     = ConvertToProviderFormat R provider req s).
Proof.
  split.
  - intros model. reflexivity.
  - unfold openai_family. intros Hfam model stream.
    unfold ConvertToProviderFormat. unfold bind at 1 3, load at 1 2. cbv beta iota.
    rewrite Hfam. reflexivity.
Qed.

Lemma ConvertToProviderFormat_ignores_model_witness :
  ConvertToProviderFormat R200 1%nat
    (mkChatRequest [user_msg "hi"] "other-model" 0%float 100 true) (one_provider claude)
  = ConvertToProviderFormat R200 1%nat (request [user_msg "hi"]) (one_provider claude).
Proof.
  destruct (ConvertToProviderFormat_ignores_model R200 1%nat (request [user_msg "hi"])
              (one_provider claude)) as [_ Hstream].
  apply (Hstream eq_refl "other-model" true).
Defined.

(** ** Statistics export *)

Lemma GetStats_loop_absent (h : loc -> Provider) (name : string) (l : list loc) :
  forall stats,
    (forall b, b ∈ l -> Name (h b) <> name) ->
    GetStats_loop h l stats !! name = stats !! name.
Proof.
  induction l as [|x l IH]; intros stats Hnone; cbn [GetStats_loop]; [reflexivity|].
  rewrite IH by (intros b Hb; apply Hnone; right; exact Hb).
  apply lookup_insert_ne. apply Hnone. left.
Qed.

Lemma GetStats_loop_last (h : loc -> Provider) (name : string) (before : list loc) :
  forall stats a after,
    Name (h a) = name ->
    (forall b, b ∈ after -> Name (h b) <> name) ->
    GetStats_loop h (before ++ a :: after) stats !! name = Some (GetStats_entry (h a)).
Proof.
  induction before as [|x before IH]; intros stats a after Ha Hafter; cbn [app GetStats_loop].
  - rewrite (GetStats_loop_absent h name after _ Hafter).
    rewrite <- Ha. apply lookup_insert_eq.
  - apply IH; assumption.
Qed.

(** X18.  [GetStats] changes nothing and reports by name: a name no entry
    bears is not in the map, and a name that several entries bear is reported
    once, with the figures of the last of them in registry order. *)
Theorem GetStats_by_name (s : State) (name : string) :
  exists stats,
    GetStats s = (Returns stats, s) /\
    ((forall b, b ∈ providers s -> Name (heap s b) <> name) ->
     stats !! name = None) /\
    (forall before a after,
       providers s = before ++ a :: after ->
       Name (heap s a) = name ->
       (forall b, b ∈ after -> Name (heap s b) <> name) ->
       stats !! name = Some (GetStats_entry (heap s a))).
Proof.
  eexists. split; [reflexivity|]. split.
  - intros Hnone. rewrite GetStats_loop_absent by exact Hnone. apply lookup_empty.
  - intros before a after Hl Ha Hafter. rewrite Hl.
    apply GetStats_loop_last; assumption.
Qed.

Lemma GetStats_by_name_witness :
  exists stats,
    GetStats cold_pool = (Returns stats, cold_pool) /\
    stats !! "b" = Some (GetStats_entry (heap cold_pool 3%nat)) /\
    stats !! "c" = None.
Proof.
  destruct (GetStats_by_name cold_pool "b") as (stats & Hrun & _ & Hlast).
  destruct (GetStats_by_name cold_pool "c") as (stats' & Hrun' & Hnone & _).
  rewrite Hrun in Hrun'. injection Hrun' as <-.
  exists stats. split; [exact Hrun|]. split.
  - apply (Hlast [1%nat; 2%nat] 3%nat []); [reflexivity|reflexivity|].
    intros b Hb. inversion Hb.
  - apply Hnone. intros b Hb. cbn in Hb.
    repeat (apply elem_of_cons in Hb as [->|Hb]; [cbn; discriminate|]).
    inversion Hb.
Defined.

(** ** The first attempt *)

Lemma window_erased_request (p q : Provider) :
  window_erased p = window_erased q ->
  Chat_endpoint p = Chat_endpoint q /\
  (forall r, Chat_headers p r = Chat_headers q r) /\
  Model p = Model q /\ Name p = Name q /\ Type_ p = Type_ q.
Proof.
  intros H.
  assert (Hty : Type_ p = Type_ q) by apply (f_equal Type_ H).
  assert (Hurl : BaseURL p = BaseURL q) by apply (f_equal BaseURL H).
  assert (Hkey : APIKey p = APIKey q) by apply (f_equal APIKey H).
  unfold Chat_endpoint, Chat_headers. rewrite Hty, Hurl, Hkey.
  repeat split; [apply (f_equal Model H)|apply (f_equal Name H)].
Qed.

(** X19.  The path of a success.  When the head of the registry has room in
    its window and is of the chat-completions family, the request can be
    encoded and built, and the transport answers the first call with status
    200 and a body that decodes, [Chat] returns at its first pass: the
    response carries the wire's identifier, model and usage, the content of
    the first choice (none: the empty string), and the name of that
    destination; one network call was made; the destination has one more
    request on its counters and no more errors; no other provider changed
    but for reopened windows. *)
Theorem Chat_first_attempt_succeeds (R : Runtime) (req : ChatRequest) (s : State)
    (provider : loc) (rest : list loc) (httpReq : HttpRequest)
    (resp : HttpResponse) (body : list Byte.byte) (decoded : openaiResp) :
  let p := heap s provider in
  let wire : gmap string wire_value :=
    {[ "model" := WString (Model p);
       "messages" := WMessages (Messages req);
       "temperature" := WFloat (Temperature req);
       "max_tokens" := WInt (MaxTokens req);
       "stream" := WBool (Stream req) ]} in
  providers s = provider :: rest ->
  0 <= RequestCount p < RequestsPerMinute p ->
  openai_family (Type_ p) = true ->
  json_Marshal_fails R wire = None ->
  http_NewRequestWithContext R "POST" (Chat_endpoint p) wire = inl httpReq ->
  client_Do R (calls s) (Chat_headers p httpReq) = inl resp ->
  StatusCode resp = StatusOK ->
  Body resp = inl body ->
  json_Unmarshal_openai R body = inl decoded ->
  exists s',
    Chat R req s
    = (Returns (inl (mkChatResponse (oID decoded)
                       (match Choices decoded with
                        | c :: _ => ChoiceContent c
                        | [] => ""
                        end)
                       (oModel decoded) (oUsage decoded) (Name p))), s') /\
    calls s' = S (calls s) /\
    TotalRequests (heap s' provider) = int_incr (TotalRequests p) /\
    Errors (heap s' provider) = Errors p /\
    forall other, other <> provider ->
      window_erased (heap s' other) = window_erased (heap s other).
Proof.
  intros p wire Hp Hq Hfam Hmarshal Hnew Hdo Hstatus Hbody Hdec.
  destruct (SelectProvider_head_permitted R s provider rest Hp Hq)
    as (s1 & Hsel & Hp1 & Hc1 & Hw1 & _).
  destruct (window_erased_request _ _ (Hw1 provider))
    as (Hurl & Hhdr & Hmodel & Hname & Hty).
  fold p in Hurl, Hhdr, Hmodel, Hname, Hty.
  assert (Hbody1 : Chat_body R req s
                   = (Returns (Return (inl (mkChatResponse (oID decoded)
                                (match Choices decoded with
                                 | c :: _ => ChoiceContent c
                                 | [] => ""
                                 end)
                                (oModel decoded) (oUsage decoded) (Name p)))),
                      attempted R s1 provider true)).
  { unfold Chat_body. unfold bind at 1. rewrite Hsel.
    unfold bind at 1.
    rewrite ConvertToProviderFormat_openai by (rewrite Hty; exact Hfam).
    rewrite Hmodel. unfold json_Marshal. fold wire. rewrite Hmarshal.
    unfold bind at 1, load at 1. cbv beta iota. rewrite Hurl, Hnew.
    unfold bind at 1, Do at 1. cbv beta iota. rewrite Hc1, Hhdr, Hdo, Hbody, Hstatus.
    cbn [Z.eqb StatusOK Pos.eqb negb].
    unfold bind at 1.
    rewrite (ParseProviderResponse_openai R provider body _ decoded);
      [|cbn [heap]; rewrite Hty; exact Hfam|exact Hdec].
    cbn [heap]. rewrite Hname, <- Hc1. reflexivity. }
  exists (attempted R s1 provider true). split.
  - unfold Chat. unfold bind at 1, get at 1. rewrite Hp. cbn [length Chat_loop].
    unfold bind at 1. rewrite Hbody1. reflexivity.
  - cbn [attempted calls heap]. rewrite fn_lookup_insert.
    cbn [recorded set_usage TotalRequests Errors].
    split; [congruence|].
    split; [f_equal; apply (f_equal TotalRequests (Hw1 provider))|].
    split; [apply (f_equal Errors (Hw1 provider))|].
    intros other Hne. rewrite fn_lookup_insert_ne by congruence. apply Hw1.
Qed.

Lemma Chat_first_attempt_succeeds_witness :
  exists s',
    Chat R200 (request [user_msg "hi"]) (one_provider gpt)
    = (Returns (inl (mkChatResponse "id-1" "hello" "gpt" (mkUsage 1 2 7) "gpt")), s') /\
    calls s' = 1%nat.
Proof.
  destruct (Chat_first_attempt_succeeds R200 (request [user_msg "hi"]) (one_provider gpt)
              1%nat []
              (mkHttpRequest "POST" "https://api/chat/completions" ∅
                 {[ "model" := WString "model";
                    "messages" := WMessages [user_msg "hi"];
                    "temperature" := WFloat 0%float;
                    "max_tokens" := WInt 100;
                    "stream" := WBool false ]})
              (mkHttpResponse 200 (inl [])) []
              (mkOpenaiResp "id-1" "gpt" [mkOpenaiChoice "hello"] (mkUsage 1 2 7)))
    as (s' & Hrun & Hcalls & _).
  - reflexivity.
  - cbn. lia.
  - reflexivity.
  - reflexivity.
  - reflexivity.
  - reflexivity.
  - reflexivity.
  - reflexivity.
  - reflexivity.
  - exists s'. split; [exact Hrun|exact Hcalls].
Defined.
